(** * Skin of the Orange: the error-estimation notebook

    A shallow embedding of [examples/Skin of the Orange.ipynb]: the Bayes
    error oracle of cell 5, the two estimators [estimate_svc_on_data] and
    [estimate_mars_on_data] of cells 7 and 11, and the last line of the
    results table of cell 13.

    Numbers.  The notebook computes on binary64 arrays.  Here every array
    entry is an exact rational ([Q]); the only irrational operation of the
    notebook, the square root inside [np.std] and [np.sqrt], lands in the
    reals ([R]).  Rounding is therefore not part of the model: every
    statement below is about the exact values the floating-point run
    approximates.

    External libraries.  scikit-learn's [SVC] and py-earth's [Earth] are
    not code of the notebook.  A call to [.fit] is an event of the program
    ([CallFit]) answered by a handler; the handler always answers (the
    notebook has no provision for a fit that fails), and a fitted model is
    identified with its per-record prediction function.  [.score] of a
    classifier is the accuracy of its predictions.  [accuracy_score],
    [np.mean], [np.std], [np.sign], [np.linspace] are written out from
    their documented behaviour. *)

From Stdlib Require Import List ZArith QArith Qabs Reals Qreals Lia Lra Lqa
  Bool Permutation.
From Stdlib Require String Ascii DecimalString.
Import ListNotations.

Local Open Scope Q_scope.

(** ** Rationals with boolean tests *)

Definition Qlt_bool (a b : Q) : bool := negb (Qle_bool b a).

Definition b2q (b : bool) : Q := if b then 1 else 0.

(** ** The numpy operations the notebook uses *)

Module Np.

(** A 2-D array is the list of its rows. *)
Definition ndarray : Type := list (list Q).

(** [a[:, j]].  The tables of the archive are rectangular with at least
    the three leading columns; on a shorter row the entry reads 0. *)
Definition column (j : nat) (a : ndarray) : list Q :=
  map (fun r => nth j r 0) a.

(** [a[:, lo:hi]], [a[:, lo:]] and [a[:, :hi]]: slices truncate. *)
Definition columns (lo hi : nat) (a : ndarray) : ndarray :=
  map (fun r => firstn (hi - lo) (skipn lo r)) a.

Definition columns_from (lo : nat) (a : ndarray) : ndarray :=
  map (skipn lo) a.

Definition columns_upto (hi : nat) (a : ndarray) : ndarray :=
  map (firstn hi) a.

Definition vstack (a b : ndarray) : ndarray := a ++ b.

(** [v == c], elementwise. *)
Definition eq_scalar (v : list Q) (c : Q) : list bool :=
  map (fun x => Qeq_bool x c) v.

(** [m1 & m2], elementwise. *)
Definition mask_and (m1 m2 : list bool) : list bool :=
  map (fun p => fst p && snd p) (combine m1 m2).

(** [a[mask, :]]: the rows whose mask entry is set, in order. *)
Fixpoint take {A : Type} (mask : list bool) (a : list A) : list A :=
  match mask, a with
  | b :: mask', r :: a' => if b then r :: take mask' a' else take mask' a'
  | _, _ => []
  end.

Fixpoint sum (v : list Q) : Q :=
  match v with
  | [] => 0
  | x :: v' => x + sum v'
  end.

(** [np.sum(a, axis=1)]. *)
Definition sum_axis1 (a : ndarray) : list Q := map sum a.

(** [a ** 2], elementwise on a 2-D array. *)
Definition square (a : ndarray) : ndarray := map (map (fun x => x ^ 2)) a.

Definition size (v : list Q) : Q := inject_Z (Z.of_nat (length v)).

(** [np.mean]; the notebook takes it of arrays of 50 entries only (of an
    empty array numpy gives [nan], the quotient here is 0). *)
Definition mean (v : list Q) : Q := sum v / size v.

(** [np.std], default [ddof = 0]:
    [sqrt(mean(abs(x - x.mean()) ** 2))]. *)
Definition var (v : list Q) : Q :=
  mean (map (fun x => Qabs (x - mean v) ^ 2) v).

Definition std (v : list Q) : R := sqrt (Q2R (var v)).

Definition zeros (n : nat) : list Q := repeat 0 n.

(** [a[i] = x]; the index is in range at every use in the notebook,
    out of range numpy raises and the array is left as it is here. *)
Fixpoint set_item (a : list Q) (i : nat) (x : Q) : list Q :=
  match a, i with
  | [], _ => []
  | _ :: a', O => x :: a'
  | y :: a', S i' => y :: set_item a' i' x
  end.

(** [np.linspace(start, stop, num)]: [num] points, the step is
    [(stop - start) / (num - 1)]. *)
Definition linspace (start stop : Q) (num : nat) : list Q :=
  let step := (stop - start) / inject_Z (Z.of_nat (num - 1)) in
  map (fun i => start + inject_Z (Z.of_nat i) * step) (seq 0 num).

(** [np.sign]: -1, 0 or 1. *)
Definition sign (x : Q) : Q :=
  match x ?= 0 with
  | Lt => -1
  | Eq => 0
  | Gt => 1
  end.

(** [range(n)] as it is compared with a column: integers as numbers. *)
Definition of_nat (n : nat) : Q := inject_Z (Z.of_nat n).

End Np.

(** ** scikit-learn's accuracy score *)

(** Number of positions at which the two label vectors agree. *)
Fixpoint agreements (y_true y_pred : list Q) : nat :=
  match y_true, y_pred with
  | t :: y_true', p :: y_pred' =>
      (if Qeq_bool t p then 1 else 0)%nat + agreements y_true' y_pred'
  | _, _ => 0%nat
  end.

(** [accuracy_score(y_true, y_pred)]: the fraction of agreeing positions.
    Vectors of different lengths are refused, and no number comes out of
    an empty sample ([None] stands for the exception and for [nan]). *)
Definition accuracy_score (y_true y_pred : list Q) : option Q :=
  if negb (length y_true =? length y_pred)%nat then None
  else match y_true with
       | [] => None
       | _ => Some (Np.of_nat (agreements y_true y_pred) / Np.size y_true)
       end.

(** ** Cell 5: the Bayes error rate *)

Definition bayes_dataset (no_noise_ds six_noise_ds : Np.ndarray) : Np.ndarray :=
  Np.vstack no_noise_ds (Np.columns_upto 7 six_noise_ds).

Definition bayes_records (ds : Np.ndarray) : Np.ndarray :=
  Np.take (Np.eq_scalar (Np.column 1 ds) 1) ds.

Definition bayes_score (records : Np.ndarray) : list Q :=
  let features := Np.columns 3 7 records in
  Np.sum_axis1 (Np.square features).

Definition bayes_y_hat (score : list Q) : list Q :=
  map (fun s => 1 - 2 * b2q (Qle_bool s 16 && Qle_bool 9 s)) score.

Definition bayes_error_rate (no_noise_ds six_noise_ds : Np.ndarray) : option Q :=
  let ds := bayes_dataset no_noise_ds six_noise_ds in
  let records := bayes_records ds in
  let score := bayes_score records in
  let y_hat := bayes_y_hat score in
  option_map (fun acc => 1 - acc) (accuracy_score (Np.column 2 records) y_hat).

(** ** Calls into the classifier libraries *)

(** A keyword argument of [**kwargs]. *)
Inductive kwarg : Type :=
| KwStr (s : String.string)
| KwNum (x : Q).

Definition kwargs : Type := list (String.string * kwarg).

(** The two estimator constructors of the notebook with the arguments it
    passes: [SVC(C=C, max_iter=..., **kwargs)] and
    [Earth(max_terms=..., max_degree=..., enable_pruning=...)]. *)
Inductive estimator : Type :=
| SVC (C : Q) (max_iter : Z) (kw : kwargs)
| Earth (max_terms max_degree : Z) (enable_pruning : bool).

(** A fitted model, as the notebook uses it: a prediction per record. *)
Definition model : Type := list Q -> Q.

(** Programs that call [.fit] of an estimator and may stop without a
    number ([Raise]: an exception of a library, or [nan]). *)
Inductive prog (A : Type) : Type :=
| Ret (a : A)
| Raise
| CallFit (e : estimator) (X : Np.ndarray) (y : list Q) (k : model -> prog A).

Arguments Ret {A} a.
Arguments Raise {A}.
Arguments CallFit {A} e X y k.

Fixpoint bind {A B : Type} (p : prog A) (f : A -> prog B) : prog B :=
  match p with
  | Ret a => f a
  | Raise => Raise
  | CallFit e X y k => CallFit e X y (fun m => bind (k m) f)
  end.

Declare Scope prog_scope.
Delimit Scope prog_scope with prog.
Notation "x <- p ;; q" := (bind p (fun x => q))
  (at level 61, p at next level, right associativity) : prog_scope.
Local Open Scope prog_scope.

Definition fit (e : estimator) (X : Np.ndarray) (y : list Q) : prog model :=
  CallFit e X y Ret.

Definition of_option {A : Type} (o : option A) : prog A :=
  match o with
  | Some a => Ret a
  | None => Raise
  end.

(** [for x in xs: s = body(x, s)]. *)
Fixpoint for_each {X S : Type} (xs : list X) (body : X -> S -> prog S) (s : S)
  : prog S :=
  match xs with
  | [] => Ret s
  | x :: xs' => s' <- body x s ;; for_each xs' body s'
  end.

(** *** Handlers *)

(** The library as a function of the call's arguments. *)
Definition fit_fn : Type := estimator -> Np.ndarray -> list Q -> model.

(** The library with a hidden state of its own (a random generator, a
    cache) that a call reads and may change. *)
Definition fit_st (St : Type) : Type :=
  estimator -> Np.ndarray -> list Q -> St -> model * St.

Fixpoint run {A : Type} (h : fit_fn) (p : prog A) : option A :=
  match p with
  | Ret a => Some a
  | Raise => None
  | CallFit e X y k => run h (k (h e X y))
  end.

Fixpoint run_st {St A : Type} (h : fit_st St) (p : prog A) (s : St)
  : option A * St :=
  match p with
  | Ret a => (Some a, s)
  | Raise => (None, s)
  | CallFit e X y k => let (m, s') := h e X y s in run_st h (k m) s'
  end.

(** The calls a run makes, in order. *)
Definition call : Type := estimator * Np.ndarray * list Q.

Fixpoint calls {A : Type} (h : fit_fn) (p : prog A) : list call :=
  match p with
  | Ret _ => []
  | Raise => []
  | CallFit e X y k => (e, X, y) :: calls h (k (h e X y))
  end.

(** ** Cells 7 and 11: the estimators *)

(** [ds[(ds[:, 0] == sim_id) & (ds[:, 1] == flag), :]]. *)
Definition select (ds : Np.ndarray) (sim_id : nat) (flag : Q) : Np.ndarray :=
  Np.take
    (Np.mask_and (Np.eq_scalar (Np.column 0 ds) (Np.of_nat sim_id))
                 (Np.eq_scalar (Np.column 1 ds) flag))
    ds.

(** [m.predict(X)]. *)
Definition predict (m : model) (X : Np.ndarray) : list Q := map m X.

(** [m.score(X, y)] of a scikit-learn classifier: the accuracy of
    [m.predict(X)] against [y]. *)
Definition score (m : model) (X : Np.ndarray) (y : list Q) : prog Q :=
  of_option (accuracy_score y (predict m X)).

(** One pass of the loop over the cost grid: [best] is
    [(best_err, best_C)]. *)
Definition svc_try (kw : kwargs) (train_ds test_ds : Np.ndarray) (C : Q)
  (best : Q * Q) : prog (Q * Q) :=
  m <- fit (SVC C 100000 kw) (Np.columns_from 3 train_ds) (Np.column 2 train_ds) ;;
  acc <- score m (Np.columns_from 3 test_ds) (Np.column 2 test_ds) ;;
  let err := 1 - acc in
  Ret (if Qlt_bool err (fst best) then (err, C) else best).

Definition cost_grid : list Q := Np.linspace (1 # 100) 5 20.

(** The body of the loop over [sim_id], up to the value stored. *)
Definition svc_replicate (ds : Np.ndarray) (kw : kwargs) (sim_id : nat) : prog Q :=
  let train_ds := select ds sim_id 0 in
  let test_ds := select ds sim_id 1 in
  best <- for_each cost_grid (svc_try kw train_ds test_ds) (1, 0) ;;
  Ret (fst best).

(** [error_rates[sim_id] = err], [err] being what the pass computes. *)
Definition store (pass : nat -> prog Q) (sim_id : nat) (error_rates : list Q)
  : prog (list Q) :=
  err <- pass sim_id ;; Ret (Np.set_item error_rates sim_id err).

Definition svc_error_rates (ds : Np.ndarray) (kw : kwargs) : prog (list Q) :=
  for_each (seq 0 50) (store (svc_replicate ds kw)) (Np.zeros 50).

Definition estimate_svc_on_data (ds : Np.ndarray) (kw : kwargs) : prog (Q * R) :=
  error_rates <- svc_error_rates ds kw ;;
  Ret (Np.mean error_rates, (Np.std error_rates / sqrt 50)%R).

Definition mars_replicate (ds : Np.ndarray) (sim_id : nat) : prog Q :=
  let train_ds := select ds sim_id 0 in
  let test_ds := select ds sim_id 1 in
  mars <- fit (Earth 20 4 true) (Np.columns_from 3 train_ds) (Np.column 2 train_ds) ;;
  let y_hat := map Np.sign (predict mars (Np.columns_from 3 test_ds)) in
  acc <- of_option (accuracy_score (Np.column 2 test_ds) y_hat) ;;
  Ret (1 - acc).

Definition mars_error_rates (ds : Np.ndarray) : prog (list Q) :=
  for_each (seq 0 50) (store (mars_replicate ds)) (Np.zeros 50).

Definition estimate_mars_on_data (ds : Np.ndarray) : prog (Q * R) :=
  error_rates <- mars_error_rates ds ;;
  Ret (Np.mean error_rates, (Np.std error_rates / sqrt 50)%R).

(** [estimate_svc_without_and_with_noise]: the estimator on the
    two tables of the archive, as a 4-tuple. *)
Definition estimate_svc_without_and_with_noise
  (no_noise_ds six_noise_ds : Np.ndarray) (kw : kwargs) : prog (Q * R * Q * R) :=
  no_noise <- estimate_svc_on_data no_noise_ds kw ;;
  six_noise <- estimate_svc_on_data six_noise_ds kw ;;
  Ret (fst no_noise, snd no_noise, fst six_noise, snd six_noise).

(** The keyword arguments of cell 8. *)
Module Kw.
Import String.
Local Open Scope string_scope.

Definition linear : kwargs := [("kernel", KwStr "linear")].

Definition poly (degree : Q) : kwargs :=
  [("gamma", KwStr "scale"); ("kernel", KwStr "poly");
   ("coef0", KwNum 1); ("degree", KwNum degree)].

End Kw.

(** ** Cell 13: the last line of the table *)

Module Fmt.
Local Open Scope string_scope.
Import String.

(** Nearest integer, ties to the even one. *)
Definition round_half_even (x : Q) : Z :=
  let n := Qnum x in
  let d := Zpos (Qden x) in
  let q := (n / d)%Z in
  let r2 := (2 * (n mod d))%Z in
  if (r2 <? d)%Z then q
  else if (d <? r2)%Z then (q + 1)%Z
  else if Z.even q then q else (q + 1)%Z.

Definition digits (n : N) : string :=
  DecimalString.NilZero.string_of_uint (N.to_uint n).

Definition pad3 (n : N) : string :=
  (if (n <? 10)%N then "00" else if (n <? 100)%N then "0" else "")
    ++ digits n.

(** [f'{x:.3f}']. *)
Definition fixed3 (x : Q) : string :=
  let a := Z.to_N (Z.abs (round_half_even (x * 1000))) in
  (if Qlt_bool x 0 then "-" else "")
    ++ digits (a / 1000) ++ "." ++ pad3 (a mod 1000).

Fixpoint spaces (n : nat) : string :=
  match n with
  | O => ""
  | S n' => " " ++ spaces n'
  end.

(** [f'{s:>w}']. *)
Definition rjust (w : nat) (s : string) : string :=
  spaces (w - length s) ++ s.

(** [f'{x:>w.3f}'] of a number or of [nan]. *)
Definition float3 (w : nat) (x : option Q) : string :=
  rjust w match x with
          | Some q => fixed3 q
          | None => "nan"
          end.

(** The text [f'Bayes {...} {...}'] around its two fields. *)
Definition bayes_fields (no_noise six_noise : string) : string :=
  "Bayes " ++ no_noise ++ " " ++ six_noise.

(** [print(f'Bayes {b:>23.3f} {b:>19.3f}')]. *)
Definition bayes_line (bayes_error_rate : option Q) : string :=
  bayes_fields (float3 23 bayes_error_rate) (float3 19 bayes_error_rate).

End Fmt.

(** Cells 3, 5 and 13 in sequence, as far as the last line goes: the two
    tables are loaded, [bayes_error_rate] is assigned in cell 5 and read
    by the [print] of cell 13. *)
Definition table_last_line (no_noise_ds six_noise_ds : Np.ndarray)
  : String.string :=
  let bayes_error_rate := bayes_error_rate no_noise_ds six_noise_ds in
  Fmt.bayes_line bayes_error_rate.

(** ** Vocabulary of the statements *)

(** Number of positions at which two label vectors differ. *)
Fixpoint disagreements (y_true y_pred : list Q) : nat :=
  match y_true, y_pred with
  | t :: y_true', p :: y_pred' =>
      (if Qeq_bool t p then 0 else 1)%nat + disagreements y_true' y_pred'
  | _, _ => 0%nat
  end.

(** The misclassification rate of [y_pred] against [y_true]. *)
Definition misclassification_rate (y_true y_pred : list Q) : Q :=
  Np.of_nat (disagreements y_true y_pred) / Np.of_nat (length y_true).

(** Sum of the squares of columns 3 to 6 of a record. *)
Definition sq_norm4 (r : list Q) : Q :=
  nth 3 r 0 ^ 2 + nth 4 r 0 ^ 2 + nth 5 r 0 ^ 2 + nth 6 r 0 ^ 2.

(** The squared norm lies in the closed interval from 9 to 16. *)
Definition in_shell (r : list Q) : bool :=
  Qle_bool 9 (sq_norm4 r) && Qle_bool (sq_norm4 r) 16.

Definition is_test (r : list Q) : bool := Qeq_bool (nth 1 r 0) 1.

Definition is_train (r : list Q) : bool := Qeq_bool (nth 1 r 0) 0.

Definition of_replicate (sim_id : nat) (r : list Q) : bool :=
  Qeq_bool (nth 0 r 0) (Np.of_nat sim_id).

(** Every replicate 0..49 of the table has a test record. *)
Definition has_test_records (ds : Np.ndarray) : bool :=
  forallb (fun sim_id => existsb (fun r => of_replicate sim_id r && is_test r) ds)
          (seq 0 50).

(** Every train/test flag of the table is 0 or 1. *)
Definition flags_binary (ds : Np.ndarray) : bool :=
  forallb (fun r => is_train r || is_test r) ds.

(** Sum of squared deviations from the arithmetic mean over [n] values. *)
Definition sum_sq_dev (n : Q) (v : list Q) : Q :=
  Np.sum (map (fun x => (x - Np.sum v / n) ^ 2) v).

(** The test error of the support-vector classifier fit with cost [C] on
    the training records, under the library [h]. *)
Definition svc_err (h : fit_fn) (kw : kwargs) (train_ds test_ds : Np.ndarray)
  (C : Q) : option Q :=
  let m := h (SVC C 100000 kw) (Np.columns_from 3 train_ds) (Np.column 2 train_ds) in
  option_map (fun acc => 1 - acc)
    (accuracy_score (Np.column 2 test_ds) (predict m (Np.columns_from 3 test_ds))).

(** A continuous prediction cut at zero. *)
Definition threshold0 (p : Q) : Q :=
  if Qlt_bool 0 p then 1 else if Qlt_bool p 0 then -1 else 0.

(** The call the spline estimator makes for a replicate. *)
Definition mars_call (ds : Np.ndarray) (sim_id : nat) : call :=
  let train_ds := select ds sim_id 0 in
  (Earth 20 4 true, Np.columns_from 3 train_ds, Np.column 2 train_ds).

(** The oracle's rule applied to a set of records: one minus the accuracy
    of the labels read off the squared norm of columns 3 to 6. *)
Definition oracle_error (records : Np.ndarray) : option Q :=
  option_map (fun acc => 1 - acc)
    (accuracy_score (Np.column 2 records) (bayes_y_hat (bayes_score records))).

(** Equality of optional numbers, up to the value of the fraction. *)
Definition opt_Qeq (a b : option Q) : Prop :=
  match a, b with
  | Some x, Some y => x == y
  | None, None => True
  | _, _ => False
  end.

(** ** A small table and a small library *)

Module Toy.

(** Replicate [i]: two training and two test records, one per class. *)
Definition rows (i : nat) : Np.ndarray :=
  let s := Np.of_nat i in
  [ [s; 0; 1; 0; 0; 0; 0];
    [s; 0; -1; 3; 0; 0; 0];
    [s; 1; 1; 1; 0; 0; 0];
    [s; 1; -1; 3; 1; 0; 0] ].

(** Three more test records, in replicates 0, 1 and 2. *)
Definition ds : Np.ndarray :=
  [0; 1; 1; 5 # 2; 0; 0; 0]
    :: [1; 1; 1; 4; 0; 0; 0]
    :: [2; 1; -1; 3; 0; 0; 0]
    :: flat_map rows (seq 0 50).

Definition six_ds : Np.ndarray :=
  map (fun r => r ++ [1; -2; 3; -4; 5; -6]) ds.

Definition sq_norm (x : list Q) : Q := Np.sum (map (fun v => v ^ 2) x).

(** A classifier whose radius grows with the cost, and a regression
    that is positive inside the sphere of squared radius 9. *)
Definition lib : fit_fn :=
  fun e _ _ x =>
    match e with
    | SVC C _ _ => if Qle_bool (4 + C) (sq_norm (firstn 4 x)) then -1 else 1
    | Earth _ _ _ => 9 - sq_norm (firstn 4 x)
    end.

(** The same library, counting its calls in a hidden state. *)
Definition lib_counting : fit_st nat :=
  fun e X y n => (lib e X y, S n).

Definition svc_rates : list Q :=
  Eval vm_compute in
    match run lib (svc_error_rates ds Kw.linear) with
    | Some v => v
    | None => []
    end.

Definition mars_rates : list Q :=
  Eval vm_compute in
    match run lib (mars_error_rates ds) with
    | Some v => v
    | None => []
    end.

End Toy.

(** ** The rest of the notebook *)

(** Cell 12: [mars_results], the spline estimate of the two tables
    unpacked into one 4-tuple, the noise-free table first. *)
Definition mars_results (no_noise_ds six_noise_ds : Np.ndarray)
  : prog (Q * R * Q * R) :=
  no_noise <- estimate_mars_on_data no_noise_ds ;;
  six_noise <- estimate_mars_on_data six_noise_ds ;;
  Ret (fst no_noise, snd no_noise, fst six_noise, snd six_noise).

(** Cells 8 and 12 in sequence, up to the list [results] of cell 13. *)
Definition notebook_results (no_noise_ds six_noise_ds : Np.ndarray)
  : prog (list (Q * R * Q * R)) :=
  linear_svc_results <-
    estimate_svc_without_and_with_noise no_noise_ds six_noise_ds Kw.linear ;;
  poly2_svc_results <-
    estimate_svc_without_and_with_noise no_noise_ds six_noise_ds (Kw.poly 2) ;;
  poly5_svc_results <-
    estimate_svc_without_and_with_noise no_noise_ds six_noise_ds (Kw.poly 5) ;;
  poly10_svc_results <-
    estimate_svc_without_and_with_noise no_noise_ds six_noise_ds (Kw.poly 10) ;;
  mars_results <- mars_results no_noise_ds six_noise_ds ;;
  Ret [linear_svc_results; poly2_svc_results; poly5_svc_results;
       poly10_svc_results; mars_results].

(** The call the support-vector estimator makes for a replicate and a
    cost. *)
Definition svc_call (ds : Np.ndarray) (kw : kwargs) (sim_id : nat) (C : Q)
  : call :=
  let train_ds := select ds sim_id 0 in
  (SVC C 100000 kw, Np.columns_from 3 train_ds, Np.column 2 train_ds).

(** A record that some pass of an estimator can select: its replicate id
    is one of 0..49 and its flag is 0 or 1. *)
Definition selectable (r : list Q) : bool :=
  existsb (fun sim_id => of_replicate sim_id r) (seq 0 50)
  && (is_train r || is_test r).

Definition is_nil {A : Type} (l : list A) : bool :=
  match l with
  | [] => true
  | _ :: _ => false
  end.

(** Replicate [j] is the first one of the table without a test record. *)
Definition first_without_test (ds : Np.ndarray) (j : nat) : bool :=
  (j <? 50)%nat
  && forallb (fun i => negb (is_nil (select ds i 1))) (seq 0 j)
  && is_nil (select ds j 1).

(** A table that stops after replicate 2. *)
Definition short_ds : Np.ndarray := flat_map Toy.rows (seq 0 3).

(** [C] is the first cost of [grid] whose error is [e], the least error
    over [grid]: every cost before it has a larger error, none after it a
    smaller one. *)
Definition first_least (err : Q -> option Q) (grid : list Q) (e C : Q) : Prop :=
  exists before after,
    grid = before ++ C :: after /\
    err C = Some e /\
    (forall C', In C' before -> exists e', err C' = Some e' /\ e < e') /\
    (forall C', In C' after -> exists e', err C' = Some e' /\ e <= e').

(** Cell 5, its last statement: [print(f'{bayes_error_rate:.3f}')]. *)
Definition cell5_output (no_noise_ds six_noise_ds : Np.ndarray) : String.string :=
  Fmt.float3 0 (bayes_error_rate no_noise_ds six_noise_ds).

(** A table on which both toy estimators are right in every replicate. *)
Definition clean_ds : Np.ndarray := flat_map Toy.rows (seq 0 50).

(** An estimate within its bounds: a mean between 0 and 1 and a standard
    error between 0 and one over the square root of 50. *)
Definition estimate_in_range (e : Q * R) : Prop :=
  0 <= fst e <= 1 /\ (0 <= snd e <= 1 / sqrt 50)%R.

Definition result_in_range (r : Q * R * Q * R) : Prop :=
  let '(no_noise_err, no_noise_std, noise_err, noise_std) := r in
  estimate_in_range (no_noise_err, no_noise_std) /\
  estimate_in_range (noise_err, noise_std).

(** The two estimates of a method side by side. *)
Definition side_by_side (a b : option (Q * R)) : option (Q * R * Q * R) :=
  match a, b with
  | Some a, Some b => Some (fst a, snd a, fst b, snd b)
  | _, _ => None
  end.

(** ** Cell 13: the table *)

Module Table.
Import String.
Local Open Scope string_scope.

(** [f'{s:<w}']. *)
Definition ljust (w : nat) (s : string) : string :=
  s ++ Fmt.spaces (w - length s).

(** Nearest integer to a real number, ties to the even one; [up x - 1] is
    the integer part of [x]. *)
Definition round_half_even (x : R) : Z :=
  let q := (up x - 1)%Z in
  let r2 := (2 * (x - IZR q))%R in
  if Rlt_dec r2 1 then q
  else if Rlt_dec 1 r2 then (q + 1)%Z
  else if Z.even q then q else (q + 1)%Z.

(** [f'{x:.3f}'] of a standard error, a real number here. *)
Definition fixed3 (x : R) : string :=
  let a := Z.to_N (Z.abs (round_half_even (x * 1000))) in
  (if Rlt_dec x 0 then "-" else "")
    ++ Fmt.digits (a / 1000) ++ "." ++ Fmt.pad3 (a mod 1000).

(** The [print] of the loop: the name in 20 columns, then mean and
    (standard error) of the two tables. *)
Definition row (name : string) (result : Q * R * Q * R) : string :=
  let '(no_noise_err, no_noise_std, noise_err, noise_std) := result in
  ljust 20 name ++ Fmt.fixed3 no_noise_err ++ " (" ++ fixed3 no_noise_std ++ ")"
    ++ "       " ++ Fmt.fixed3 noise_err ++ " (" ++ fixed3 noise_std ++ ")".

Definition names : list string :=
  ["1  SV Classifier"; "2  SVM/poly 2"; "3  SVM/poly 5"; "4  SVM/poly 10"; "6  MARS"].

Definition header : list string :=
  ["                             Test Error (SE)";
   "Methods           No Noise Features   Six Noise Features";
   "----------------------------------------------------------"].

(** The lines cell 13 prints. *)
Definition print_table (results : list (Q * R * Q * R))
  (bayes_error_rate : option Q) : list string :=
  header
    ++ map (fun p => row (fst p) (snd p)) (combine names results)
    ++ [Fmt.bayes_line bayes_error_rate].

End Table.

(** Cells 8, 12 and 13 in sequence, [bayes_error_rate] being the value
    cell 5 left. *)
Definition cell13_output (no_noise_ds six_noise_ds : Np.ndarray)
  : prog (list String.string) :=
  let bayes_error_rate := bayes_error_rate no_noise_ds six_noise_ds in
  results <- notebook_results no_noise_ds six_noise_ds ;;
  Ret (Table.print_table results bayes_error_rate).

(** The test errors of the 50 replicates when one cost [C] is used
    throughout (0 stands in where a replicate has no test record). *)
Definition fixed_cost_errors (h : fit_fn) (ds : Np.ndarray) (kw : kwargs)
  (C : Q) : list Q :=
  map (fun sim_id =>
         match svc_err h kw (select ds sim_id 0) (select ds sim_id 1) C with
         | Some e => e
         | None => 0
         end)
      (seq 0 50).

(** The small table with one more test record in replicate 7, and what
    the toy library gives on it. *)
Definition other_ds : Np.ndarray := [7; 1; 1; 4; 0; 0; 0] :: Toy.ds.

Definition other_svc_rates : list Q :=
  Eval vm_compute in
    match run Toy.lib (svc_error_rates other_ds Kw.linear) with
    | Some v => v
    | None => []
    end.

Definition other_mars_rates : list Q :=
  Eval vm_compute in
    match run Toy.lib (mars_error_rates other_ds) with
    | Some v => v
    | None => []
    end.

(** ** A library that may refuse a call *)

(** scikit-learn and py-earth refuse some calls: an empty training set,
    labels of one class only, a keyword that the constructor does not
    know or is given twice.  [None] is such a refusal, an exception that
    ends the run at that call. *)
Definition fit_opt : Type := estimator -> Np.ndarray -> list Q -> option model.

Fixpoint run_opt {A : Type} (h : fit_opt) (p : prog A) : option A :=
  match p with
  | Ret a => Some a
  | Raise => None
  | CallFit e X y k =>
      match h e X y with
      | Some m => run_opt h (k m)
      | None => None
      end
  end.

(** The calls a run makes, the refused one included. *)
Fixpoint calls_opt {A : Type} (h : fit_opt) (p : prog A) : list call :=
  match p with
  | Ret _ => []
  | Raise => []
  | CallFit e X y k =>
      (e, X, y) :: match h e X y with
                   | Some m => calls_opt h (k m)
                   | None => []
                   end
  end.

Definition answers (h : fit_opt) (c : call) : bool :=
  match h (fst (fst c)) (snd (fst c)) (snd c) with
  | Some _ => true
  | None => false
  end.

(** A library that may refuse, made to answer everywhere (where it
    refuses, with the model that predicts 0). *)
Definition completed (h : fit_opt) : fit_fn :=
  fun e X y =>
    match h e X y with
    | Some m => m
    | None => fun _ => 0
    end.

(** The calls of a complete run of each estimator, and of cells 8 and
    12. *)
Definition svc_calls (ds : Np.ndarray) (kw : kwargs) : list call :=
  flat_map (fun sim_id => map (svc_call ds kw sim_id) cost_grid) (seq 0 50).

Definition mars_calls (ds : Np.ndarray) : list call :=
  map (mars_call ds) (seq 0 50).

Definition notebook_calls (no_noise_ds six_noise_ds : Np.ndarray) : list call :=
  flat_map (fun kw => svc_calls no_noise_ds kw ++ svc_calls six_noise_ds kw)
           [Kw.linear; Kw.poly 2; Kw.poly 5; Kw.poly 10]
    ++ (mars_calls no_noise_ds ++ mars_calls six_noise_ds).

(** The calls the support-vector estimator has made when it reaches the
    first cost of replicate [j]. *)
Definition svc_calls_upto (ds : Np.ndarray) (kw : kwargs) (j : nat) : list call :=
  flat_map (fun sim_id => map (svc_call ds kw sim_id) cost_grid) (seq 0 j)
    ++ [svc_call ds kw j (nth 0 cost_grid 0)].

(** Fitting estimator [e] on the training records gives, from every
    hidden state of the library, a model with the same predictions on the
    test records. *)
Definition predictions_repeat {St : Type} (hs : fit_st St) (e : estimator)
  (train_ds test_ds : Np.ndarray) : Prop :=
  forall (s s' : St) (x : list Q),
    In x (Np.columns_from 3 test_ds) ->
    fst (hs e (Np.columns_from 3 train_ds) (Np.column 2 train_ds) s) x
    = fst (hs e (Np.columns_from 3 train_ds) (Np.column 2 train_ds) s') x.

(** The labels are all of one class (or there is none). *)
Definition one_class (y : list Q) : bool :=
  match y with
  | [] => true
  | t :: y' => forallb (Qeq_bool t) y'
  end.

(** The toy library with the refusals of the real ones: no classifier
    for labels of one class, no regression on no record. *)
Definition strict_lib : fit_opt :=
  fun e X y =>
    match e with
    | SVC _ _ _ => if one_class y then None else Some (Toy.lib e X y)
    | Earth _ _ _ => if is_nil y then None else Some (Toy.lib e X y)
    end.

(** A library whose model depends on its hidden state, but only away
    from the records of the toy tables (where the first feature is 99). *)
Definition drifting_lib : fit_st Q :=
  fun e X y s =>
    ((fun x => if Qeq_bool (nth 0 x 0) 99 then s else Toy.lib e X y x), s + 1).

(** Replicates 0 to 2 complete, replicate 3 with training records only. *)
Definition no_test3_ds : Np.ndarray :=
  flat_map Toy.rows (seq 0 3) ++ firstn 2 (Toy.rows 3).

(** Test records in every replicate, but no training record in
    replicate 0. *)
Definition no_train0_ds : Np.ndarray := skipn 2 clean_ds.

(** ** Reading a printed rate back *)

Module Read.
Import String.
Local Open Scope string_scope.

Definition digit (c : Ascii.ascii) : option Z :=
  let n := Ascii.nat_of_ascii c in
  if ((48 <=? n) && (n <=? 57))%nat then Some (Z.of_nat (n - 48)) else None.

(** The number of thousandths a text [d.ddd] stands for (46 is the code
    of the point, 48 to 57 are the codes of the digits). *)
Definition thousandths (t : string) : option Z :=
  match t with
  | String c0 (String dot (String c1 (String c2 (String c3 EmptyString)))) =>
      match digit c0, digit c1, digit c2, digit c3 with
      | Some d0, Some d1, Some d2, Some d3 =>
          if (Ascii.nat_of_ascii dot =? 46)%nat
          then Some (1000 * d0 + 100 * d1 + 10 * d2 + d3)%Z
          else None
      | _, _, _, _ => None
      end
  | _ => None
  end.

(** The titles of the two columns in the second line of the heading. *)
Definition no_noise_title : string := "No Noise Features".
Definition six_noise_title : string := "Six Noise Features".
Definition bayes_word : string := "Bayes ".
Definition nan : string := "nan".

End Read.

(** * Properties *)

(** ** Masks and selections *)

Section Masks.
Context {A : Type}.

Lemma take_map (f : A -> bool) (l : list A) :
  Np.take (map f l) l = filter f l.
Proof.
  induction l as [|x l IH]; simpl; [reflexivity|].
  rewrite IH. reflexivity.
Qed.

Lemma mask_and_map (f g : A -> bool) (l : list A) :
  Np.mask_and (map f l) (map g l) = map (fun x => f x && g x) l.
Proof.
  unfold Np.mask_and.
  induction l as [|x l IH]; simpl; [reflexivity|].
  rewrite IH. reflexivity.
Qed.
End Masks.

Lemma eq_scalar_column (j : nat) (c : Q) (ds : Np.ndarray) :
  Np.eq_scalar (Np.column j ds) c = map (fun r => Qeq_bool (nth j r 0) c) ds.
Proof. unfold Np.eq_scalar, Np.column. apply map_map. Qed.

Lemma select_filter (ds : Np.ndarray) (sim_id : nat) (flag : Q) :
  select ds sim_id flag
  = filter (fun r => of_replicate sim_id r && Qeq_bool (nth 1 r 0) flag) ds.
Proof.
  unfold select. rewrite !eq_scalar_column, mask_and_map.
  apply take_map.
Qed.

Lemma bayes_records_filter (ds : Np.ndarray) :
  bayes_records ds = filter is_test ds.
Proof.
  unfold bayes_records. rewrite eq_scalar_column. apply (take_map is_test).
Qed.

(** ** Accuracy and misclassification *)

Lemma agree_disagree (y p : list Q) :
  length y = length p ->
  (agreements y p + disagreements y p)%nat = length y.
Proof.
  revert p. induction y as [|t y IH]; intros [|q p] H; simpl in *; try lia.
  injection H as H. specialize (IH p H).
  destruct (Qeq_bool t q); lia.
Qed.

Lemma of_nat_pos (n : nat) : (0 < n)%nat -> 0 < Np.of_nat n.
Proof.
  intros H. unfold Np.of_nat, Qlt. simpl. lia.
Qed.

Lemma of_nat_plus (a b : nat) :
  Np.of_nat (a + b) == Np.of_nat a + Np.of_nat b.
Proof.
  unfold Np.of_nat. rewrite Nat2Z.inj_add, inject_Z_plus. reflexivity.
Qed.

Lemma of_nat_le (a b : nat) : (a <= b)%nat -> Np.of_nat a <= Np.of_nat b.
Proof.
  intros H. unfold Np.of_nat. rewrite <- Zle_Qle. lia.
Qed.

(** What [accuracy_score] returns, and when. *)
Lemma accuracy_score_some (y p : list Q) :
  length y = length p -> y <> [] ->
  accuracy_score y p
  = Some (Np.of_nat (agreements y p) / Np.of_nat (length y)).
Proof.
  intros Hlen Hne. unfold accuracy_score.
  rewrite Hlen, Nat.eqb_refl. simpl.
  destruct y; [contradiction|]. rewrite <- Hlen. reflexivity.
Qed.

Lemma accuracy_score_empty (p : list Q) : accuracy_score [] p = None.
Proof. unfold accuracy_score. destruct (negb _); reflexivity. Qed.

Lemma accuracy_score_inv (y p : list Q) (a : Q) :
  accuracy_score y p = Some a ->
  length y = length p /\ y <> [] /\
  a = Np.of_nat (agreements y p) / Np.of_nat (length y).
Proof.
  unfold accuracy_score.
  destruct (Nat.eqb_spec (length y) (length p)) as [E|E]; simpl; [|discriminate].
  destruct y as [|t y]; [discriminate|].
  intros H. injection H as <-. repeat split; [exact E|discriminate].
Qed.

(** One minus the accuracy is the misclassification rate. *)
Lemma error_is_misclassification (y p : list Q) (a : Q) :
  accuracy_score y p = Some a ->
  1 - a == misclassification_rate y p.
Proof.
  intros H. apply accuracy_score_inv in H as (Hlen & Hne & ->).
  unfold misclassification_rate.
  assert (Hpos : 0 < Np.of_nat (length y)).
  { apply of_nat_pos. destruct y; [contradiction|simpl; lia]. }
  pose proof (agree_disagree y p Hlen) as Hsum.
  pose proof (of_nat_plus (agreements y p) (disagreements y p)) as Hq.
  rewrite Hsum in Hq.
  set (n := Np.of_nat (length y)) in *.
  set (g := Np.of_nat (agreements y p)) in *.
  set (d := Np.of_nat (disagreements y p)) in *.
  field_simplify_eq; [|lra]. lra.
Qed.

Lemma accuracy_in_unit (y p : list Q) (a : Q) :
  accuracy_score y p = Some a -> 0 <= a <= 1.
Proof.
  intros H. apply accuracy_score_inv in H as (Hlen & Hne & ->).
  assert (Hpos : 0 < Np.of_nat (length y)).
  { apply of_nat_pos. destruct y; [contradiction|simpl; lia]. }
  pose proof (agree_disagree y p Hlen) as Hsum.
  assert (Hle : Np.of_nat (agreements y p) <= Np.of_nat (length y))
    by (apply of_nat_le; lia).
  assert (H0 : 0 <= Np.of_nat (agreements y p))
    by (apply (of_nat_le 0); lia).
  split.
  - apply Qle_shift_div_l; lra.
  - apply Qle_shift_div_r; lra.
Qed.

(** ** The Bayes error oracle *)

Lemma row_score (r : list Q) :
  Np.sum (map (fun x => x ^ 2) (firstn (7 - 3) (skipn 3 r))) == sq_norm4 r.
Proof.
  unfold sq_norm4.
  destruct r as [|a [|b [|c [|d [|e [|f [|g r]]]]]]]; simpl; ring.
Qed.

Lemma bayes_score_rows (records : Np.ndarray) :
  Forall2 Qeq (bayes_score records) (map sq_norm4 records).
Proof.
  unfold bayes_score, Np.sum_axis1, Np.square, Np.columns.
  rewrite !map_map.
  induction records as [|r records IH]; simpl; constructor.
  - apply row_score.
  - exact IH.
Qed.

Lemma in_shell_iff (r : list Q) :
  in_shell r = true <-> 9 <= sq_norm4 r /\ sq_norm4 r <= 16.
Proof.
  unfold in_shell. rewrite andb_true_iff, !Qle_bool_iff. reflexivity.
Qed.

Lemma bayes_label (s : Q) (r : list Q) :
  s == sq_norm4 r ->
  1 - 2 * b2q (Qle_bool s 16 && Qle_bool 9 s) = if in_shell r then -1 else 1.
Proof.
  intros E. unfold in_shell. rewrite <- E.
  destruct (Qle_bool s 16), (Qle_bool 9 s); reflexivity.
Qed.

Lemma bayes_y_hat_rows (records : Np.ndarray) :
  bayes_y_hat (bayes_score records)
  = map (fun r => if in_shell r then -1 else 1) records.
Proof.
  unfold bayes_y_hat.
  pose proof (bayes_score_rows records) as H.
  remember (bayes_score records) as sc eqn:Esc. clear Esc.
  revert sc H. induction records as [|r records IH]; intros sc H;
    inversion H; subst; simpl; [reflexivity|].
  f_equal; [apply bayes_label; assumption|apply IH; assumption].
Qed.

Lemma bayes_y_hat_length (records : Np.ndarray) :
  length (Np.column 2 records) = length (bayes_y_hat (bayes_score records)).
Proof.
  rewrite bayes_y_hat_rows. unfold Np.column. rewrite !length_map. reflexivity.
Qed.

Lemma oracle_output (records : Np.ndarray) :
  let y_hat := bayes_y_hat (bayes_score records) in
  opt_Qeq (option_map (fun acc => 1 - acc)
                      (accuracy_score (Np.column 2 records) y_hat))
          match records with
          | [] => None
          | _ => Some (misclassification_rate (Np.column 2 records) y_hat)
          end.
Proof.
  intros y_hat.
  pose proof (bayes_y_hat_length records) as Hlen. fold y_hat in Hlen.
  destruct records as [|r records]; [exact I|].
  assert (Hne : Np.column 2 (r :: records) <> []) by discriminate.
  pose proof (accuracy_score_some _ _ Hlen Hne) as Hacc.
  rewrite Hacc. simpl option_map.
  apply (error_is_misclassification _ _ _ Hacc).
Qed.

(** C1. For every test record (flag 1) of the pooled table, the oracle's
    score is the sum of the squares of columns 3 to 6, its label is the one
    of the surrounded class (-1) exactly when the score lies in the closed
    interval from 9 to 16 and the other label (+1) otherwise, and its
    output is the fraction of test records whose label differs from
    column 2 (no number when there is no test record). *)
Theorem bayes_oracle_rule (no_noise_ds six_noise_ds : Np.ndarray) :
  let ds := bayes_dataset no_noise_ds six_noise_ds in
  let records := bayes_records ds in
  let y_hat := bayes_y_hat (bayes_score records) in
  records = filter is_test ds /\
  Forall2 Qeq (bayes_score records) (map sq_norm4 records) /\
  (forall r, in_shell r = true <-> 9 <= sq_norm4 r /\ sq_norm4 r <= 16) /\
  y_hat = map (fun r => if in_shell r then -1 else 1) records /\
  opt_Qeq (bayes_error_rate no_noise_ds six_noise_ds)
          match records with
          | [] => None
          | _ => Some (misclassification_rate (Np.column 2 records) y_hat)
          end.
Proof.
  intros ds records y_hat.
  split; [apply bayes_records_filter|].
  split; [apply bayes_score_rows|].
  split; [apply in_shell_iff|].
  split; [apply bayes_y_hat_rows|].
  unfold bayes_error_rate. apply oracle_output.
Qed.

(** ** Training and test records of a replicate *)

Lemma train_not_test (r : list Q) : is_train r = true -> is_test r = false.
Proof.
  unfold is_train, is_test. intros H.
  apply Qeq_bool_iff in H.
  destruct (Qeq_bool (nth 1 r 0) 1) eqn:E; [|reflexivity].
  apply Qeq_bool_iff in E. rewrite H in E. discriminate E.
Qed.

Lemma select_in (ds : Np.ndarray) (sim_id : nat) (flag : Q) (r : list Q) :
  In r (select ds sim_id flag) <->
  In r ds /\ of_replicate sim_id r = true /\ Qeq_bool (nth 1 r 0) flag = true.
Proof.
  rewrite select_filter, filter_In, andb_true_iff. reflexivity.
Qed.

(** C7. In a table whose train/test flags are all 0 or 1, the training
    records (flag 0) and the test records (flag 1) that the estimators
    select for a replicate id have no record in common, and together they
    are, record for record, the records that carry that replicate id. *)
Theorem train_test_partition (ds : Np.ndarray) (sim_id : nat) :
  flags_binary ds = true ->
  (forall r, In r (select ds sim_id 0) -> ~ In r (select ds sim_id 1)) /\
  Permutation (select ds sim_id 0 ++ select ds sim_id 1)
              (filter (of_replicate sim_id) ds).
Proof.
  intros Hflags. split.
  - intros r H0 H1.
    apply select_in in H0 as (_ & _ & H0).
    apply select_in in H1 as (_ & _ & H1).
    apply train_not_test in H0. unfold is_test in H0. congruence.
  - rewrite !select_filter. unfold flags_binary in Hflags.
    induction ds as [|r ds IH]; simpl in *; [constructor|].
    apply andb_true_iff in Hflags as [Hr Hds]. specialize (IH Hds).
    fold (is_train r). fold (is_test r).
    destruct (of_replicate sim_id r); simpl; [|exact IH].
    destruct (is_train r) eqn:Etrain.
    + rewrite (train_not_test r Etrain). simpl. apply perm_skip, IH.
    + simpl in Hr. rewrite Hr.
      apply Permutation_sym, Permutation_cons_app, Permutation_sym, IH.
Qed.

Lemma train_test_partition_witness :
  (forall r, In r (select Toy.ds 2 0) -> ~ In r (select Toy.ds 2 1)) /\
  Permutation (select Toy.ds 2 0 ++ select Toy.ds 2 1)
              (filter (of_replicate 2) Toy.ds).
Proof.
  apply (train_test_partition Toy.ds 2). vm_compute. reflexivity.
Defined.

(** ** Running programs *)

Section Run.
Variable h : fit_fn.

Lemma run_bind {A B : Type} (p : prog A) (f : A -> prog B) :
  run h (bind p f)
  = match run h p with
    | Some a => run h (f a)
    | None => None
    end.
Proof.
  induction p as [a| |e X y k IH]; simpl; auto.
Qed.

Lemma calls_bind {A B : Type} (p : prog A) (f : A -> prog B) :
  calls h (bind p f)
  = calls h p ++ match run h p with
                 | Some a => calls h (f a)
                 | None => []
                 end.
Proof.
  induction p as [a| |e X y k IH]; simpl; auto.
  rewrite IH. reflexivity.
Qed.

Lemma run_of_option {A : Type} (o : option A) : run h (of_option o) = o.
Proof. destruct o; reflexivity. Qed.

Lemma calls_of_option {A : Type} (o : option A) : calls h (of_option o) = [].
Proof. destruct o; reflexivity. Qed.
End Run.

(** A library that is a function of the call's arguments alone runs a
    program to the same result from every hidden state. *)
Lemma run_st_pure {St A : Type} (hs : fit_st St) (h : fit_fn) :
  (forall e X y s, fst (hs e X y s) = h e X y) ->
  forall (p : prog A) (s : St), fst (run_st hs p s) = run h p.
Proof.
  intros Hdet p. induction p as [a| |e X y k IH]; intros s; simpl; auto.
  specialize (Hdet e X y s). destruct (hs e X y s) as [m s']. simpl in Hdet.
  subst m. apply IH.
Qed.

(** ** Arrays filled in a loop *)

Lemma set_item_length (a : list Q) (i : nat) (x : Q) :
  length (Np.set_item a i x) = length a.
Proof.
  revert i. induction a as [|y a IH]; intros [|i]; simpl; auto.
Qed.

Lemma set_item_same (a : list Q) (i : nat) (x d : Q) :
  (i < length a)%nat -> nth i (Np.set_item a i x) d = x.
Proof.
  revert i. induction a as [|y a IH]; intros [|i] H; simpl in *; try lia; auto.
  apply IH. lia.
Qed.

Lemma set_item_other (a : list Q) (i j : nat) (x d : Q) :
  i <> j -> nth j (Np.set_item a i x) d = nth j a d.
Proof.
  revert i j. induction a as [|y a IH]; intros [|i] [|j] H; simpl; auto.
  contradiction.
Qed.

Section Fill.
Variable h : fit_fn.
Variable body : nat -> prog Q.

Lemma run_step (i : nat) (a : list Q) :
  run h (store body i a) = option_map (Np.set_item a i) (run h (body i)).
Proof.
  unfold store. rewrite run_bind. destruct (run h (body i)); reflexivity.
Qed.

(** What a completed loop leaves in the array. *)
Lemma fill_inv (k s : nat) (a a' : list Q) :
  run h (for_each (seq s k) (store body) a) = Some a' ->
  (s + k <= length a)%nat ->
  length a' = length a /\
  (forall i, (i < s)%nat -> nth i a' 0 = nth i a 0) /\
  (forall i, (s <= i < s + k)%nat -> run h (body i) = Some (nth i a' 0)).
Proof.
  revert s a. induction k as [|k IH]; intros s a Hrun Hlen; simpl in Hrun.
  - injection Hrun as <-. repeat split; auto. intros i Hi. lia.
  - rewrite run_bind, run_step in Hrun.
    destruct (run h (body s)) as [x|] eqn:Ex; [|discriminate].
    simpl in Hrun. apply IH in Hrun as (Hl & Hlow & Hhigh);
      [|rewrite set_item_length; lia].
    rewrite set_item_length in Hl. split; [exact Hl|]. split.
    + intros i Hi. rewrite Hlow by lia. apply set_item_other. lia.
    + intros i Hi. destruct (Nat.eq_dec i s) as [->|Hne].
      * rewrite Hlow by lia. rewrite set_item_same by lia. exact Ex.
      * apply Hhigh. lia.
Qed.

(** The loop completes when every pass does. *)
Lemma fill_total (k s : nat) (a : list Q) :
  (forall i, (s <= i < s + k)%nat -> run h (body i) <> None) ->
  exists a', run h (for_each (seq s k) (store body) a) = Some a'.
Proof.
  revert s a. induction k as [|k IH]; intros s a Hall; simpl.
  - eexists. reflexivity.
  - rewrite run_bind, run_step.
    destruct (run h (body s)) as [x|] eqn:Ex.
    + simpl. apply IH. intros i Hi. apply Hall. lia.
    + exfalso. apply (Hall s); [lia|exact Ex].
Qed.

(** The calls of a completed loop are those of its passes, in order. *)
Lemma fill_calls (k s : nat) (a a' : list Q) :
  run h (for_each (seq s k) (store body) a) = Some a' ->
  calls h (for_each (seq s k) (store body) a)
  = flat_map (fun i => calls h (body i)) (seq s k).
Proof.
  revert s a. induction k as [|k IH]; intros s a Hrun; simpl in *; auto.
  rewrite run_bind, run_step in Hrun. rewrite calls_bind, run_step.
  destruct (run h (body s)) as [x|] eqn:Ex; [|discriminate].
  simpl in *. unfold store at 1. rewrite calls_bind, Ex. simpl.
  rewrite app_nil_r. f_equal. apply IH. exact Hrun.
Qed.
End Fill.

(** ** One replicate of the support-vector estimator *)

Lemma Qlt_bool_iff (a b : Q) : Qlt_bool a b = true <-> a < b.
Proof.
  unfold Qlt_bool. rewrite negb_true_iff.
  destruct (Qle_bool b a) eqn:E.
  - apply Qle_bool_iff in E. split; [discriminate|]. intros H.
    exfalso. apply (Qlt_not_le _ _ H E).
  - split; [|reflexivity]. intros _. apply Qnot_le_lt. intros H.
    apply Qle_bool_iff in H. congruence.
Qed.

Lemma has_test_records_select (ds : Np.ndarray) (sim_id : nat) :
  has_test_records ds = true -> (sim_id < 50)%nat -> select ds sim_id 1 <> [].
Proof.
  unfold has_test_records. intros H Hlt.
  rewrite forallb_forall in H.
  specialize (H sim_id). rewrite in_seq in H. specialize (H ltac:(lia)).
  apply existsb_exists in H as (r & Hin & Hr).
  apply andb_true_iff in Hr as [Hsim Htest].
  assert (Hsel : In r (select ds sim_id 1))
    by (apply select_in; repeat split; assumption).
  intros E. rewrite E in Hsel. exact Hsel.
Qed.

Lemma test_lengths (f : list Q -> Q) (test_ds : Np.ndarray) :
  length (Np.column 2 test_ds) = length (map f (Np.columns_from 3 test_ds)).
Proof.
  unfold Np.column, Np.columns_from. rewrite !length_map. reflexivity.
Qed.

Lemma column_nonempty (j : nat) (a : Np.ndarray) : a <> [] -> Np.column j a <> [].
Proof. destruct a; [contradiction|discriminate]. Qed.

Section Sweep.
Variable h : fit_fn.
Variable kw : kwargs.
Variables train_ds test_ds : Np.ndarray.

Let err := svc_err h kw train_ds test_ds.

Lemma svc_err_unit (C e : Q) : err C = Some e -> 0 <= e <= 1.
Proof.
  unfold err, svc_err. intros H.
  destruct (accuracy_score _ _) as [a|] eqn:Ea; [|discriminate].
  injection H as <-. apply accuracy_in_unit in Ea. lra.
Qed.

Lemma svc_err_total (C : Q) : test_ds <> [] -> exists e, err C = Some e.
Proof.
  intros Hne. unfold err, svc_err, predict.
  rewrite accuracy_score_some;
    [eexists; reflexivity|apply test_lengths|apply column_nonempty, Hne].
Qed.

Lemma run_svc_try (C : Q) (best : Q * Q) :
  run h (svc_try kw train_ds test_ds C best)
  = option_map (fun e => if Qlt_bool e (fst best) then (e, C) else best)
               (err C).
Proof.
  unfold svc_try, fit, score, err, svc_err. simpl.
  rewrite run_bind, run_of_option.
  destruct (accuracy_score _ _); reflexivity.
Qed.

(** The loop over the grid keeps the least error seen, and the first
    cost that reached it. *)
Lemma sweep_inv (grid : list Q) (best best' : Q * Q) :
  run h (for_each grid (svc_try kw train_ds test_ds) best) = Some best' ->
  fst best' <= fst best /\
  (forall C, In C grid -> exists e, err C = Some e /\ fst best' <= e) /\
  (best' = best \/ exists C, In C grid /\ err C = Some (fst best')).
Proof.
  revert best. induction grid as [|C grid IH]; intros best Hrun;
    cbn [for_each] in Hrun.
  - injection Hrun as <-. repeat split; [lra| |left; reflexivity].
    intros C [].
  - rewrite run_bind, run_svc_try in Hrun.
    destruct (err C) as [e|] eqn:Ee; [|discriminate].
    simpl in Hrun. apply IH in Hrun as (Hle & Hall & Hsrc).
    assert (Hstep : fst (if Qlt_bool e (fst best) then (e, C) else best)
                    <= fst best /\
                    fst (if Qlt_bool e (fst best) then (e, C) else best) <= e).
    { destruct (Qlt_bool e (fst best)) eqn:Elt; simpl.
      - apply Qlt_bool_iff in Elt. lra.
      - split; [lra|]. apply Qnot_lt_le. intros Hlt.
        apply Qlt_bool_iff in Hlt. congruence. }
    destruct Hstep as [Hs1 Hs2]. repeat split.
    + lra.
    + intros C' [<-|Hin].
      * exists e. split; [exact Ee|lra].
      * apply Hall, Hin.
    + destruct Hsrc as [->|(C' & Hin & HC')].
      * destruct (Qlt_bool e (fst best)); [|left; reflexivity].
        right. exists C. split; [left; reflexivity|exact Ee].
      * right. exists C'. split; [right; exact Hin|exact HC'].
Qed.

Lemma sweep_total (grid : list Q) (best : Q * Q) :
  test_ds <> [] ->
  exists best', run h (for_each grid (svc_try kw train_ds test_ds) best)
                = Some best'.
Proof.
  intros Hne. revert best.
  induction grid as [|C grid IH]; intros best; cbn [for_each].
  - eexists. reflexivity.
  - rewrite run_bind, run_svc_try.
    destruct (svc_err_total C Hne) as [e ->]. simpl. apply IH.
Qed.

(** Without a test record the first fit is scored on nothing. *)
Lemma sweep_fails (C : Q) (grid : list Q) (best : Q * Q) :
  test_ds = [] ->
  run h (for_each (C :: grid) (svc_try kw train_ds test_ds) best) = None.
Proof.
  intros E. cbn [for_each]. rewrite run_bind, run_svc_try.
  unfold err, svc_err. rewrite E. reflexivity.
Qed.
End Sweep.

Lemma run_svc_replicate (h : fit_fn) (ds : Np.ndarray) (kw : kwargs) (sim_id : nat) :
  run h (svc_replicate ds kw sim_id)
  = option_map fst
      (run h (for_each cost_grid
                (svc_try kw (select ds sim_id 0) (select ds sim_id 1)) (1, 0))).
Proof.
  unfold svc_replicate. rewrite run_bind.
  destruct (run h _); reflexivity.
Qed.

(** ** The cost grid *)

Lemma cost_grid_points :
  length cost_grid = 20%nat /\
  Forall (fun C => 1 # 100 <= C /\ C <= 5) cost_grid /\
  nth 0 cost_grid 0 == 1 # 100 /\
  nth 19 cost_grid 0 == 5 /\
  forall i, (i < 19)%nat ->
            nth (S i) cost_grid 0 - nth i cost_grid 0 == (5 - (1 # 100)) / 19.
Proof.
  split; [reflexivity|]. split.
  - repeat constructor; vm_compute; discriminate.
  - split; [vm_compute; reflexivity|]. split; [vm_compute; reflexivity|].
    intros i Hi.
    do 19 (destruct i as [|i]; [vm_compute; reflexivity|]). lia.
Qed.

Lemma svc_rates_inv (h : fit_fn) (ds : Np.ndarray) (kw : kwargs) (rates : list Q) :
  run h (svc_error_rates ds kw) = Some rates ->
  length rates = 50%nat /\
  forall i, (i < 50)%nat -> run h (svc_replicate ds kw i) = Some (nth i rates 0).
Proof.
  intros Hrun. unfold svc_error_rates in Hrun.
  apply fill_inv in Hrun as (Hlen & _ & Hall); [|simpl; lia].
  split; [exact Hlen|]. intros i Hi. apply Hall. lia.
Qed.

(** C2. The error stored for a replicate by the support-vector estimator
    is the least, over the 20 costs evenly spaced from 0.01 to 5, of the
    test error of the classifier fit on the replicate's training records
    with that cost: it is the error of some cost of the grid and is at
    most the error of every cost of the grid. *)
Theorem svc_stores_grid_minimum (h : fit_fn) (ds : Np.ndarray) (kw : kwargs)
  (sim_id : nat) (rates : list Q) :
  (sim_id < 50)%nat ->
  run h (svc_error_rates ds kw) = Some rates ->
  let stored := nth sim_id rates 0 in
  let err := svc_err h kw (select ds sim_id 0) (select ds sim_id 1) in
  (length cost_grid = 20%nat /\
   nth 0 cost_grid 0 == 1 # 100 /\
   nth 19 cost_grid 0 == 5 /\
   forall i, (i < 19)%nat ->
             nth (S i) cost_grid 0 - nth i cost_grid 0 == (5 - (1 # 100)) / 19) /\
  (exists C e, In C cost_grid /\ err C = Some e /\ stored == e) /\
  (forall C, In C cost_grid -> exists e, err C = Some e /\ stored <= e).
Proof.
  intros Hlt Hrun stored err.
  split.
  { destruct cost_grid_points as (H1 & _ & H2 & H3 & H4). auto. }
  apply svc_rates_inv in Hrun as [_ Hall]. specialize (Hall sim_id Hlt).
  fold stored in Hall. rewrite run_svc_replicate in Hall.
  destruct (run h (for_each cost_grid _ _)) as [best|] eqn:Esweep;
    [|discriminate].
  simpl in Hall. injection Hall as Hbest.
  apply sweep_inv in Esweep as (Hle & Hmin & Hsrc).
  rewrite Hbest in *. simpl in Hle. fold err in Hmin, Hsrc.
  split; [|exact Hmin].
  destruct Hsrc as [->|(C & Hin & HC)].
  - assert (Hin : In (nth 0 cost_grid 0) cost_grid) by (left; reflexivity).
    destruct (Hmin _ Hin) as (e & He & Hse).
    exists (nth 0 cost_grid 0), e.
    split; [exact Hin|]. split; [exact He|].
    pose proof (svc_err_unit _ _ _ _ _ _ He) as Hunit.
    simpl in Hbest. subst stored. rewrite <- Hbest in *. lra.
  - exists C, stored.
    split; [exact Hin|]. split; [exact HC|reflexivity].
Qed.

Lemma svc_stores_grid_minimum_witness :
  let stored := nth 0 Toy.svc_rates 0 in
  let err := svc_err Toy.lib Kw.linear (select Toy.ds 0 0) (select Toy.ds 0 1) in
  (length cost_grid = 20%nat /\
   nth 0 cost_grid 0 == 1 # 100 /\
   nth 19 cost_grid 0 == 5 /\
   forall i, (i < 19)%nat ->
             nth (S i) cost_grid 0 - nth i cost_grid 0 == (5 - (1 # 100)) / 19) /\
  (exists C e, In C cost_grid /\ err C = Some e /\ stored == e) /\
  (forall C, In C cost_grid -> exists e, err C = Some e /\ stored <= e).
Proof.
  apply (svc_stores_grid_minimum Toy.lib Toy.ds Kw.linear 0 Toy.svc_rates).
  - lia.
  - vm_compute. reflexivity.
Defined.

(** ** One replicate of the spline estimator *)

Lemma sign_threshold0 (p : Q) : Np.sign p = threshold0 p.
Proof.
  unfold Np.sign, threshold0.
  destruct (p ?= 0) eqn:E.
  - apply Qeq_alt in E.
    assert (H1 : Qlt_bool 0 p = false).
    { destruct (Qlt_bool 0 p) eqn:El; [|reflexivity].
      apply Qlt_bool_iff in El. lra. }
    assert (H2 : Qlt_bool p 0 = false).
    { destruct (Qlt_bool p 0) eqn:El; [|reflexivity].
      apply Qlt_bool_iff in El. lra. }
    rewrite H1, H2. reflexivity.
  - apply Qlt_alt in E.
    assert (H1 : Qlt_bool 0 p = false).
    { destruct (Qlt_bool 0 p) eqn:El; [|reflexivity].
      apply Qlt_bool_iff in El. lra. }
    assert (H2 : Qlt_bool p 0 = true) by (apply Qlt_bool_iff; exact E).
    rewrite H1, H2. reflexivity.
  - apply Qgt_alt in E.
    assert (H1 : Qlt_bool 0 p = true) by (apply Qlt_bool_iff; exact E).
    rewrite H1. reflexivity.
Qed.

Lemma run_mars_replicate (h : fit_fn) (ds : Np.ndarray) (sim_id : nat) :
  let train_ds := select ds sim_id 0 in
  let test_ds := select ds sim_id 1 in
  let mars := h (Earth 20 4 true) (Np.columns_from 3 train_ds) (Np.column 2 train_ds) in
  run h (mars_replicate ds sim_id)
  = option_map (fun acc => 1 - acc)
      (accuracy_score (Np.column 2 test_ds)
         (map (fun x => threshold0 (mars x)) (Np.columns_from 3 test_ds))).
Proof.
  intros train_ds test_ds mars.
  unfold mars_replicate, fit, predict. simpl.
  fold train_ds. fold test_ds. fold mars.
  rewrite run_bind, run_of_option, map_map.
  rewrite (map_ext _ (fun x => threshold0 (mars x)))
    by (intros x; apply sign_threshold0).
  destruct (accuracy_score _ _); reflexivity.
Qed.

Lemma mars_replicate_total (h : fit_fn) (ds : Np.ndarray) (sim_id : nat) :
  select ds sim_id 1 <> [] -> run h (mars_replicate ds sim_id) <> None.
Proof.
  intros Hne. rewrite run_mars_replicate.
  rewrite accuracy_score_some;
    [discriminate|apply test_lengths|apply column_nonempty, Hne].
Qed.

Lemma mars_replicate_unit (h : fit_fn) (ds : Np.ndarray) (sim_id : nat) (e : Q) :
  run h (mars_replicate ds sim_id) = Some e -> 0 <= e <= 1.
Proof.
  rewrite run_mars_replicate.
  destruct (accuracy_score _ _) as [a|] eqn:Ea; [|discriminate].
  intros H. injection H as <-. apply accuracy_in_unit in Ea. lra.
Qed.

Lemma mars_rates_inv (h : fit_fn) (ds : Np.ndarray) (rates : list Q) :
  run h (mars_error_rates ds) = Some rates ->
  length rates = 50%nat /\
  forall i, (i < 50)%nat -> run h (mars_replicate ds i) = Some (nth i rates 0).
Proof.
  intros Hrun. unfold mars_error_rates in Hrun.
  apply fill_inv in Hrun as (Hlen & _ & Hall); [|simpl; lia].
  split; [exact Hlen|]. intros i Hi. apply Hall. lia.
Qed.

(** ** The estimators complete *)

Lemma svc_replicate_total (h : fit_fn) (ds : Np.ndarray) (kw : kwargs) (sim_id : nat) :
  select ds sim_id 1 <> [] -> run h (svc_replicate ds kw sim_id) <> None.
Proof.
  intros Hne. rewrite run_svc_replicate.
  destruct (sweep_total h kw (select ds sim_id 0) _ cost_grid (1, 0) Hne)
    as [best ->].
  discriminate.
Qed.

Lemma svc_replicate_unit (h : fit_fn) (ds : Np.ndarray) (kw : kwargs)
  (sim_id : nat) (e : Q) :
  run h (svc_replicate ds kw sim_id) = Some e -> 0 <= e <= 1.
Proof.
  rewrite run_svc_replicate.
  destruct (run h (for_each cost_grid _ _)) as [best|] eqn:Esweep;
    [|discriminate].
  intros H. injection H as <-.
  apply sweep_inv in Esweep as (Hle & _ & Hsrc). simpl in Hle.
  split; [|exact Hle].
  destruct Hsrc as [->|(C & _ & HC)]; [simpl; lra|].
  apply svc_err_unit in HC. lra.
Qed.

Lemma svc_rates_total (h : fit_fn) (ds : Np.ndarray) (kw : kwargs) :
  has_test_records ds = true ->
  exists rates, run h (svc_error_rates ds kw) = Some rates.
Proof.
  intros H. apply fill_total. intros i Hi.
  apply svc_replicate_total, has_test_records_select; [exact H|lia].
Qed.

Lemma mars_rates_total (h : fit_fn) (ds : Np.ndarray) :
  has_test_records ds = true ->
  exists rates, run h (mars_error_rates ds) = Some rates.
Proof.
  intros H. apply fill_total. intros i Hi.
  apply mars_replicate_total, has_test_records_select; [exact H|lia].
Qed.

Lemma run_estimate_svc (h : fit_fn) (ds : Np.ndarray) (kw : kwargs) :
  run h (estimate_svc_on_data ds kw)
  = option_map (fun v => (Np.mean v, (Np.std v / sqrt 50)%R))
               (run h (svc_error_rates ds kw)).
Proof.
  unfold estimate_svc_on_data. rewrite run_bind.
  destruct (run h _); reflexivity.
Qed.

Lemma run_estimate_mars (h : fit_fn) (ds : Np.ndarray) :
  run h (estimate_mars_on_data ds)
  = option_map (fun v => (Np.mean v, (Np.std v / sqrt 50)%R))
               (run h (mars_error_rates ds)).
Proof.
  unfold estimate_mars_on_data. rewrite run_bind.
  destruct (run h _); reflexivity.
Qed.

(** *** ... and only on tables with test records in every replicate *)

Lemma has_test_records_intro (ds : Np.ndarray) :
  (forall sim_id, (sim_id < 50)%nat -> select ds sim_id 1 <> []) ->
  has_test_records ds = true.
Proof.
  intros H. unfold has_test_records. apply forallb_forall.
  intros sim_id Hin. apply in_seq in Hin.
  specialize (H sim_id ltac:(lia)).
  destruct (select ds sim_id 1) as [|r rest] eqn:E; [contradiction|].
  assert (Hr : In r (select ds sim_id 1)) by (rewrite E; left; reflexivity).
  apply select_in in Hr as (Hds & Hsim & Htest).
  apply existsb_exists. exists r. split; [exact Hds|].
  unfold is_test. rewrite Hsim, Htest. reflexivity.
Qed.

Lemma svc_replicate_fails (h : fit_fn) (ds : Np.ndarray) (kw : kwargs) (sim_id : nat) :
  select ds sim_id 1 = [] -> run h (svc_replicate ds kw sim_id) = None.
Proof.
  intros E. rewrite run_svc_replicate.
  assert (Hgrid : exists C grid, cost_grid = C :: grid)
    by (eexists; eexists; reflexivity).
  destruct Hgrid as (C & grid & ->).
  rewrite sweep_fails by exact E. reflexivity.
Qed.

Lemma mars_replicate_fails (h : fit_fn) (ds : Np.ndarray) (sim_id : nat) :
  select ds sim_id 1 = [] -> run h (mars_replicate ds sim_id) = None.
Proof.
  intros E. rewrite run_mars_replicate, E. reflexivity.
Qed.

(** A table with a replicate that has no test record gives no estimate:
    the classifier is scored on nothing. *)
Lemma estimators_need_test_records (h : fit_fn) (ds : Np.ndarray) (kw : kwargs) :
  has_test_records ds = false ->
  run h (estimate_svc_on_data ds kw) = None /\
  run h (estimate_mars_on_data ds) = None.
Proof.
  intros H. split.
  - rewrite run_estimate_svc.
    destruct (run h (svc_error_rates ds kw)) as [rates|] eqn:E; [|reflexivity].
    apply svc_rates_inv in E as [_ Hall].
    rewrite has_test_records_intro in H; [discriminate|].
    intros i Hi Hempty. specialize (Hall i Hi).
    rewrite (svc_replicate_fails h ds kw i Hempty) in Hall. discriminate.
  - rewrite run_estimate_mars.
    destruct (run h (mars_error_rates ds)) as [rates|] eqn:E; [|reflexivity].
    apply mars_rates_inv in E as [_ Hall].
    rewrite has_test_records_intro in H; [discriminate|].
    intros i Hi Hempty. specialize (Hall i Hi).
    rewrite (mars_replicate_fails h ds i Hempty) in Hall. discriminate.
Qed.

(** ** Mean and standard deviation of fifty values *)

Lemma sum_map_ext (f g : Q -> Q) (v : list Q) :
  (forall x, f x == g x) -> Np.sum (map f v) == Np.sum (map g v).
Proof.
  intros H. induction v as [|x v IH]; simpl; [reflexivity|].
  rewrite IH, (H x). reflexivity.
Qed.

Lemma Qabs_sq (y : Q) : Qabs y ^ 2 == y ^ 2.
Proof.
  apply Qabs_case; intros _; simpl; ring.
Qed.

Lemma mean_50 (v : list Q) : length v = 50%nat -> Np.mean v = Np.sum v / 50.
Proof.
  intros H. unfold Np.mean, Np.size. rewrite H. reflexivity.
Qed.

Lemma var_50 (v : list Q) :
  length v = 50%nat -> Np.var v == sum_sq_dev 50 v / 50.
Proof.
  intros H. unfold Np.var, sum_sq_dev.
  rewrite mean_50 by (rewrite length_map; exact H).
  rewrite (mean_50 v H).
  apply Qmult_comp; [|reflexivity].
  apply sum_map_ext. intros x. apply Qabs_sq.
Qed.

Lemma std_50 (v : list Q) :
  length v = 50%nat -> Np.std v = sqrt (Q2R (sum_sq_dev 50 v / 50)).
Proof.
  intros H. unfold Np.std. f_equal. apply Qeq_eqR, var_50, H.
Qed.

Lemma nth_all (P : Q -> Prop) (v : list Q) :
  (forall i, (i < length v)%nat -> P (nth i v 0)) -> forall x, In x v -> P x.
Proof.
  intros H x Hin. destruct (In_nth v x 0 Hin) as (i & Hi & <-). apply H, Hi.
Qed.

Lemma sum_unit (v : list Q) :
  (forall x, In x v -> 0 <= x <= 1) ->
  0 <= Np.sum v <= Np.of_nat (length v).
Proof.
  induction v as [|x v IH]; intros H.
  - split; vm_compute; discriminate.
  - assert (Hx : 0 <= x <= 1) by (apply H; left; reflexivity).
    assert (Hv : 0 <= Np.sum v <= Np.of_nat (length v))
      by (apply IH; intros y Hy; apply H; right; exact Hy).
    pose proof (of_nat_plus 1 (length v)) as Hs.
    change (Np.of_nat 1) with 1 in Hs.
    change (Np.sum (x :: v)) with (x + Np.sum v).
    change (length (x :: v)) with (1 + length v)%nat.
    lra.
Qed.

Lemma sq_dev_unit (x m : Q) : 0 <= x <= 1 -> 0 <= m <= 1 -> 0 <= (x - m) ^ 2 <= 1.
Proof.
  intros Hx Hm. simpl.
  assert (H1 : 0 <= (x - m) * (x - m)).
  { destruct (Qlt_le_dec (x - m) 0) as [Hneg|Hpos].
    - setoid_replace ((x - m) * (x - m)) with ((m - x) * (m - x)) by ring.
      apply Qmult_le_0_compat; lra.
    - apply Qmult_le_0_compat; lra. }
  assert (H2 : 0 <= (1 - (x - m)) * (1 + (x - m)))
    by (apply Qmult_le_0_compat; lra).
  split; [exact H1|].
  setoid_replace ((1 - (x - m)) * (1 + (x - m)))
    with (1 - (x - m) * (x - m)) in H2 by ring.
  lra.
Qed.

Lemma fifty_unit_values (v : list Q) :
  length v = 50%nat ->
  (forall i, (i < 50)%nat -> 0 <= nth i v 0 <= 1) ->
  0 <= Np.mean v <= 1 /\ (0 <= Np.std v / sqrt 50 <= 1 / sqrt 50)%R.
Proof.
  intros Hlen Hall.
  assert (Hin : forall x, In x v -> 0 <= x <= 1).
  { apply (nth_all (fun x => 0 <= x <= 1)). rewrite Hlen. exact Hall. }
  pose proof (sum_unit v Hin) as Hsum. rewrite Hlen in Hsum.
  change (Np.of_nat 50) with 50 in Hsum.
  assert (Hmean : 0 <= Np.sum v / 50 <= 1).
  { split; [apply Qle_shift_div_l|apply Qle_shift_div_r]; lra. }
  split; [rewrite (mean_50 v Hlen); exact Hmean|].
  assert (Hdev : 0 <= sum_sq_dev 50 v <= 50).
  { unfold sum_sq_dev.
    pose proof (sum_unit (map (fun x => (x - Np.sum v / 50) ^ 2) v)) as Hs.
    rewrite length_map, Hlen in Hs. apply Hs.
    intros y Hy. apply in_map_iff in Hy as (x & <- & Hx).
    apply sq_dev_unit; [apply Hin, Hx|exact Hmean]. }
  assert (Hvar : 0 <= sum_sq_dev 50 v / 50 <= 1).
  { split; [apply Qle_shift_div_l|apply Qle_shift_div_r]; lra. }
  rewrite (std_50 v Hlen).
  destruct Hvar as [Hv0 Hv1]. apply Qle_Rle in Hv0, Hv1.
  rewrite RMicromega.Q2R_0 in Hv0. rewrite RMicromega.Q2R_1 in Hv1.
  set (q := Q2R (sum_sq_dev 50 v / 50)) in *.
  assert (H50 : (0 < sqrt 50)%R) by (apply sqrt_lt_R0; Lra.lra).
  assert (Hs0 : (0 <= sqrt q)%R) by apply sqrt_pos.
  assert (Hs1 : (sqrt q <= 1)%R).
  { rewrite <- sqrt_1. apply sqrt_le_1; Lra.lra. }
  split.
  - apply Rmult_le_pos; [exact Hs0|]. left. apply Rinv_0_lt_compat, H50.
  - apply Rmult_le_compat_r; [|exact Hs1].
    left. apply Rinv_0_lt_compat, H50.
Qed.

(** ** What the estimators return *)

Lemma estimate_of_rates (v : list Q) :
  length v = 50%nat ->
  Np.mean v == Np.sum v / 50 /\
  (Np.std v / sqrt 50 = sqrt (Q2R (sum_sq_dev 50 v / 50)) / sqrt 50)%R.
Proof.
  intros H. split.
  - rewrite (mean_50 v H). reflexivity.
  - rewrite (std_50 v H). reflexivity.
Qed.

(** C3. On a table in which every replicate has a test record, each
    estimator returns the pair (m, s) in which m is the sum of the 50
    stored per-replicate error rates divided by 50, and s is the square
    root of the sum of their squared deviations from m divided by 50 (not
    49), divided by the square root of 50. *)
Theorem estimators_return_mean_and_se (h : fit_fn) (ds : Np.ndarray) (kw : kwargs) :
  has_test_records ds = true ->
  (exists rates m s,
      run h (svc_error_rates ds kw) = Some rates /\
      length rates = 50%nat /\
      (forall i, (i < 50)%nat ->
                 run h (svc_replicate ds kw i) = Some (nth i rates 0)) /\
      run h (estimate_svc_on_data ds kw) = Some (m, s) /\
      m == Np.sum rates / 50 /\
      s = (sqrt (Q2R (sum_sq_dev 50 rates / 50)) / sqrt 50)%R) /\
  (exists rates m s,
      run h (mars_error_rates ds) = Some rates /\
      length rates = 50%nat /\
      (forall i, (i < 50)%nat ->
                 run h (mars_replicate ds i) = Some (nth i rates 0)) /\
      run h (estimate_mars_on_data ds) = Some (m, s) /\
      m == Np.sum rates / 50 /\
      s = (sqrt (Q2R (sum_sq_dev 50 rates / 50)) / sqrt 50)%R).
Proof.
  intros H. split.
  - destruct (svc_rates_total h ds kw H) as [rates Hrun].
    destruct (svc_rates_inv h ds kw rates Hrun) as [Hlen Hall].
    destruct (estimate_of_rates rates Hlen) as [Hm Hs].
    exists rates, (Np.mean rates), (Np.std rates / sqrt 50)%R.
    rewrite run_estimate_svc, Hrun. simpl. auto 7.
  - destruct (mars_rates_total h ds H) as [rates Hrun].
    destruct (mars_rates_inv h ds rates Hrun) as [Hlen Hall].
    destruct (estimate_of_rates rates Hlen) as [Hm Hs].
    exists rates, (Np.mean rates), (Np.std rates / sqrt 50)%R.
    rewrite run_estimate_mars, Hrun. simpl. auto 7.
Qed.

Lemma estimators_return_mean_and_se_witness :
  (exists rates m s,
      run Toy.lib (svc_error_rates Toy.ds Kw.linear) = Some rates /\
      length rates = 50%nat /\
      (forall i, (i < 50)%nat ->
                 run Toy.lib (svc_replicate Toy.ds Kw.linear i)
                 = Some (nth i rates 0)) /\
      run Toy.lib (estimate_svc_on_data Toy.ds Kw.linear) = Some (m, s) /\
      m == Np.sum rates / 50 /\
      s = (sqrt (Q2R (sum_sq_dev 50 rates / 50)) / sqrt 50)%R) /\
  (exists rates m s,
      run Toy.lib (mars_error_rates Toy.ds) = Some rates /\
      length rates = 50%nat /\
      (forall i, (i < 50)%nat ->
                 run Toy.lib (mars_replicate Toy.ds i) = Some (nth i rates 0)) /\
      run Toy.lib (estimate_mars_on_data Toy.ds) = Some (m, s) /\
      m == Np.sum rates / 50 /\
      s = (sqrt (Q2R (sum_sq_dev 50 rates / 50)) / sqrt 50)%R).
Proof.
  apply (estimators_return_mean_and_se Toy.lib Toy.ds Kw.linear).
  vm_compute. reflexivity.
Defined.

(** C6. On a table in which every replicate has a test record (so that
    every per-replicate error rate is a fraction between 0 and 1), the
    mean error each estimator returns lies between 0 and 1, and the
    standard error it returns is at least 0 and at most 1 over the square
    root of 50. *)
Theorem estimates_in_range (h : fit_fn) (ds : Np.ndarray) (kw : kwargs) :
  has_test_records ds = true ->
  (exists m s,
      run h (estimate_svc_on_data ds kw) = Some (m, s) /\
      0 <= m <= 1 /\ (0 <= s <= 1 / sqrt 50)%R) /\
  (exists m s,
      run h (estimate_mars_on_data ds) = Some (m, s) /\
      0 <= m <= 1 /\ (0 <= s <= 1 / sqrt 50)%R).
Proof.
  intros H. split.
  - destruct (svc_rates_total h ds kw H) as [rates Hrun].
    destruct (svc_rates_inv h ds kw rates Hrun) as [Hlen Hall].
    exists (Np.mean rates), (Np.std rates / sqrt 50)%R.
    rewrite run_estimate_svc, Hrun. split; [reflexivity|].
    apply fifty_unit_values; [exact Hlen|].
    intros i Hi. apply (svc_replicate_unit h ds kw i), Hall, Hi.
  - destruct (mars_rates_total h ds H) as [rates Hrun].
    destruct (mars_rates_inv h ds rates Hrun) as [Hlen Hall].
    exists (Np.mean rates), (Np.std rates / sqrt 50)%R.
    rewrite run_estimate_mars, Hrun. split; [reflexivity|].
    apply fifty_unit_values; [exact Hlen|].
    intros i Hi. apply (mars_replicate_unit h ds i), Hall, Hi.
Qed.

Lemma estimates_in_range_witness :
  (exists m s,
      run Toy.lib (estimate_svc_on_data Toy.six_ds (Kw.poly 2)) = Some (m, s) /\
      0 <= m <= 1 /\ (0 <= s <= 1 / sqrt 50)%R) /\
  (exists m s,
      run Toy.lib (estimate_mars_on_data Toy.six_ds) = Some (m, s) /\
      0 <= m <= 1 /\ (0 <= s <= 1 / sqrt 50)%R).
Proof.
  apply (estimates_in_range Toy.lib Toy.six_ds (Kw.poly 2)).
  vm_compute. reflexivity.
Defined.

(** ** The divisor of the standard deviation *)

Lemma toy_svc_run :
  run Toy.lib (svc_error_rates Toy.ds Kw.linear) = Some Toy.svc_rates.
Proof. vm_compute. reflexivity. Qed.

Lemma toy_svc_estimate :
  run Toy.lib (estimate_svc_on_data Toy.ds Kw.linear)
  = Some (Np.mean Toy.svc_rates, (Np.std Toy.svc_rates / sqrt 50)%R).
Proof. rewrite run_estimate_svc, toy_svc_run. reflexivity. Qed.

(** On the small table only replicate 1 keeps an error: its test record
    of squared norm 16 and label +1 is outside every radius of the grid. *)
Example toy_svc_rates :
  Toy.svc_rates = (0 # 3) :: (1 # 3) :: (0 # 3) :: repeat (0 # 2) 47.
Proof. reflexivity. Qed.

Example toy_svc_sum_sq_dev : sum_sq_dev 50 Toy.svc_rates == 49 # 450.
Proof. vm_compute. reflexivity. Qed.

(** C8, as the notebook has it. The standard error the support-vector
    estimator returns is the population standard deviation of the 50
    per-replicate error rates (the square root of the sum of squared
    deviations from their mean divided by 50), divided by the square root
    of 50. *)
Theorem svc_standard_error_divisor (h : fit_fn) (ds : Np.ndarray) (kw : kwargs)
  (rates : list Q) (m : Q) (s : R) :
  run h (svc_error_rates ds kw) = Some rates ->
  run h (estimate_svc_on_data ds kw) = Some (m, s) ->
  s = (sqrt (Q2R (sum_sq_dev 50 rates / 50)) / sqrt 50)%R.
Proof.
  intros Hrates Hrun.
  rewrite run_estimate_svc, Hrates in Hrun. simpl in Hrun.
  injection Hrun as _ <-.
  apply svc_rates_inv in Hrates as [Hlen _].
  apply estimate_of_rates, Hlen.
Qed.

Lemma svc_standard_error_divisor_witness :
  (Np.std Toy.svc_rates / sqrt 50
   = sqrt (Q2R (sum_sq_dev 50 Toy.svc_rates / 50)) / sqrt 50)%R.
Proof.
  apply (svc_standard_error_divisor Toy.lib Toy.ds Kw.linear Toy.svc_rates
           (Np.mean Toy.svc_rates)).
  - vm_compute. reflexivity.
  - rewrite run_estimate_svc.
    replace (run Toy.lib (svc_error_rates Toy.ds Kw.linear))
      with (Some Toy.svc_rates) by (vm_compute; reflexivity).
    reflexivity.
Defined.

(** C8, as the glossary words it, fails: on the small table the standard
    error returned differs from the sample standard deviation (divisor 49)
    of the error rates divided by the square root of 50. *)
Lemma svc_standard_error_not_sample :
  exists rates m s,
    run Toy.lib (svc_error_rates Toy.ds Kw.linear) = Some rates /\
    run Toy.lib (estimate_svc_on_data Toy.ds Kw.linear) = Some (m, s) /\
    s <> (sqrt (Q2R (sum_sq_dev 50 rates / 49)) / sqrt 50)%R.
Proof.
  exists Toy.svc_rates, (Np.mean Toy.svc_rates),
    (Np.std Toy.svc_rates / sqrt 50)%R.
  split; [exact toy_svc_run|]. split; [exact toy_svc_estimate|].
  rewrite std_50 by reflexivity.
  intros E.
  assert (H50 : (0 < sqrt 50)%R) by (apply sqrt_lt_R0; Lra.lra).
  apply Rmult_eq_reg_r in E;
    [|apply Rinv_neq_0_compat, Rgt_not_eq, H50].
  apply sqrt_inj in E.
  - apply eqR_Qeq in E. vm_compute in E. discriminate E.
  - rewrite <- RMicromega.Q2R_0. apply Qle_Rle. vm_compute. discriminate.
  - rewrite <- RMicromega.Q2R_0. apply Qle_Rle. vm_compute. discriminate.
Qed.

(** ** The spline estimator fits once per replicate *)

Lemma calls_mars_replicate (h : fit_fn) (ds : Np.ndarray) (sim_id : nat) :
  calls h (mars_replicate ds sim_id) = [mars_call ds sim_id].
Proof.
  unfold mars_replicate, mars_call, fit. simpl.
  rewrite calls_bind, calls_of_option, run_of_option.
  destruct (accuracy_score _ _); reflexivity.
Qed.

Lemma threshold0_cut (p : Q) :
  (0 < p -> threshold0 p = 1) /\ (p < 0 -> threshold0 p = -1).
Proof.
  unfold threshold0. split; intros H.
  - apply Qlt_bool_iff in H. rewrite H. reflexivity.
  - assert (H0 : Qlt_bool 0 p = false).
    { destruct (Qlt_bool 0 p) eqn:E; [|reflexivity].
      apply Qlt_bool_iff in E. lra. }
    apply Qlt_bool_iff in H. rewrite H0, H. reflexivity.
Qed.

(** C4. For a replicate the spline estimator calls the library once: it
    fits one model with at most 20 terms, interaction degree at most 4 and
    pruning enabled on the replicate's training records; the predictions
    on the test records are cut at zero into labels, and the error of the
    replicate is the misclassification rate of these labels.  A completed
    run of the estimator makes these 50 calls and no other. *)
Theorem mars_fits_once (h : fit_fn) (ds : Np.ndarray) (sim_id : nat) :
  let train_ds := select ds sim_id 0 in
  let test_ds := select ds sim_id 1 in
  let X := Np.columns_from 3 train_ds in
  let y := Np.column 2 train_ds in
  let y_hat := map (fun x => threshold0 (h (Earth 20 4 true) X y x))
                   (Np.columns_from 3 test_ds) in
  calls h (mars_replicate ds sim_id) = [(Earth 20 4 true, X, y)] /\
  (forall p, (0 < p -> threshold0 p = 1) /\ (p < 0 -> threshold0 p = -1)) /\
  opt_Qeq (run h (mars_replicate ds sim_id))
          match test_ds with
          | [] => None
          | _ => Some (misclassification_rate (Np.column 2 test_ds) y_hat)
          end /\
  (forall rates,
      run h (mars_error_rates ds) = Some rates ->
      calls h (mars_error_rates ds) = map (mars_call ds) (seq 0 50)).
Proof.
  intros train_ds test_ds X y y_hat.
  split; [apply calls_mars_replicate|].
  split; [apply threshold0_cut|].
  split.
  - rewrite run_mars_replicate. fold train_ds test_ds X y y_hat.
    assert (Hlen : length (Np.column 2 test_ds) = length y_hat)
      by apply test_lengths.
    destruct test_ds as [|r test_ds']; [exact I|].
    assert (Hne : Np.column 2 (r :: test_ds') <> []) by discriminate.
    pose proof (accuracy_score_some _ _ Hlen Hne) as Hacc.
    rewrite Hacc. simpl option_map.
    apply (error_is_misclassification _ _ _ Hacc).
  - intros rates Hrun. unfold mars_error_rates in *.
    rewrite (fill_calls h _ _ _ _ _ Hrun).
    rewrite (flat_map_ext _ (fun i => [mars_call ds i]))
      by (intros i; apply calls_mars_replicate).
    generalize (seq 0 50). intros l.
    induction l as [|i l IH]; simpl; [reflexivity|].
    rewrite IH. reflexivity.
Qed.

Lemma mars_fits_once_witness :
  calls Toy.lib (mars_error_rates Toy.ds) = map (mars_call Toy.ds) (seq 0 50).
Proof.
  apply (mars_fits_once Toy.lib Toy.ds 0 : _ /\ _ /\ _ /\ _) with Toy.mars_rates.
  vm_compute. reflexivity.
Defined.

(** ** Two runs on the same table *)

Lemma run_st_bind {St A B : Type} (hs : fit_st St) (p : prog A)
  (f : A -> prog B) (s : St) :
  run_st hs (bind p f) s
  = match run_st hs p s with
    | (Some a, s') => run_st hs (f a) s'
    | (None, s') => (None, s')
    end.
Proof.
  revert s. induction p as [a| |e X y k IH]; intros s; simpl; auto.
  destruct (hs e X y s) as [m s']. apply IH.
Qed.

Section Repeats.
Context {St : Type}.
Variable hs : fit_st St.

(** The value of a run does not depend on the hidden state it starts
    from. *)
Let steady {A : Type} (p : prog A) : Prop :=
  forall s1 s2 : St, fst (run_st hs p s1) = fst (run_st hs p s2).

Lemma steady_ret {A : Type} (a : A) : steady (Ret a).
Proof. intros s1 s2. reflexivity. Qed.

Lemma steady_bind {A B : Type} (p : prog A) (f : A -> prog B) :
  steady p -> (forall a, steady (f a)) -> steady (bind p f).
Proof.
  intros Hp Hf s1 s2. rewrite !run_st_bind. specialize (Hp s1 s2).
  destruct (run_st hs p s1) as [o1 t1]. destruct (run_st hs p s2) as [o2 t2].
  simpl in Hp. subst o2. destruct o1 as [a|]; [apply Hf|reflexivity].
Qed.

Lemma steady_for_each {X S : Type} (xs : list X) (body : X -> S -> prog S) :
  (forall x s, In x xs -> steady (body x s)) ->
  forall s, steady (for_each xs body s).
Proof.
  induction xs as [|x xs IH]; intros H s; cbn [for_each].
  - apply steady_ret.
  - apply steady_bind; [apply H; left; reflexivity|].
    intros s'. apply IH. intros y t Hy. apply H. right. exact Hy.
Qed.

(** What a pass over one cost returns, from the model the library gives
    in the state the pass starts from. *)
Lemma run_st_svc_try (kw : kwargs) (train_ds test_ds : Np.ndarray) (C : Q)
  (best : Q * Q) (s : St) :
  let m := fst (hs (SVC C 100000 kw) (Np.columns_from 3 train_ds)
                   (Np.column 2 train_ds) s) in
  fst (run_st hs (svc_try kw train_ds test_ds C best) s)
  = option_map (fun acc => if Qlt_bool (1 - acc) (fst best)
                           then (1 - acc, C) else best)
      (accuracy_score (Np.column 2 test_ds) (map m (Np.columns_from 3 test_ds))).
Proof.
  unfold svc_try, fit, score, predict. simpl.
  destruct (hs (SVC C 100000 kw) _ _ s) as [m s']. simpl.
  destruct (accuracy_score _ _); reflexivity.
Qed.

Lemma run_st_mars_replicate (ds : Np.ndarray) (sim_id : nat) (s : St) :
  let train_ds := select ds sim_id 0 in
  let test_ds := select ds sim_id 1 in
  let m := fst (hs (Earth 20 4 true) (Np.columns_from 3 train_ds)
                   (Np.column 2 train_ds) s) in
  fst (run_st hs (mars_replicate ds sim_id) s)
  = option_map (fun acc => 1 - acc)
      (accuracy_score (Np.column 2 test_ds)
         (map Np.sign (map m (Np.columns_from 3 test_ds)))).
Proof.
  unfold mars_replicate, fit, predict. simpl.
  destruct (hs (Earth 20 4 true) _ _ s) as [m s']. simpl.
  destruct (accuracy_score _ _); reflexivity.
Qed.

Lemma steady_svc_try (kw : kwargs) (train_ds test_ds : Np.ndarray) (C : Q)
  (best : Q * Q) :
  predictions_repeat hs (SVC C 100000 kw) train_ds test_ds ->
  steady (svc_try kw train_ds test_ds C best).
Proof.
  intros H s1 s2. rewrite !run_st_svc_try. cbv zeta.
  rewrite (map_ext_in _ _ _ (H s1 s2)). reflexivity.
Qed.

Lemma steady_svc_estimate (ds : Np.ndarray) (kw : kwargs) :
  (forall i C, (i < 50)%nat -> In C cost_grid ->
               predictions_repeat hs (SVC C 100000 kw)
                                  (select ds i 0) (select ds i 1)) ->
  steady (estimate_svc_on_data ds kw).
Proof.
  intros H. unfold estimate_svc_on_data.
  apply steady_bind; [|intros v; apply steady_ret].
  unfold svc_error_rates. apply steady_for_each. intros i a Hi.
  apply in_seq in Hi. unfold store.
  apply steady_bind; [|intros e; apply steady_ret].
  unfold svc_replicate. apply steady_bind; [|intros b; apply steady_ret].
  apply steady_for_each. intros C best HC.
  apply steady_svc_try, H; [lia|exact HC].
Qed.

Lemma steady_mars_estimate (ds : Np.ndarray) :
  (forall i, (i < 50)%nat ->
             predictions_repeat hs (Earth 20 4 true)
                                (select ds i 0) (select ds i 1)) ->
  steady (estimate_mars_on_data ds).
Proof.
  intros H. unfold estimate_mars_on_data.
  apply steady_bind; [|intros v; apply steady_ret].
  unfold mars_error_rates. apply steady_for_each. intros i a Hi.
  apply in_seq in Hi. unfold store.
  apply steady_bind; [|intros e; apply steady_ret].
  intros s1 s2. rewrite !run_st_mars_replicate. cbv zeta.
  rewrite (map_ext_in _ _ _ (H i ltac:(lia) s1 s2)). reflexivity.
Qed.
End Repeats.

(** C9. Let the library have a hidden state that a fit reads and may
    change.  If the library is deterministic on what the estimator asks of
    it (for each replicate and, for the support-vector estimator, each
    cost of the grid, fitting on the replicate's training records gives
    from every hidden state a model with the same predictions on the
    replicate's test records), then two runs of the estimator on the same
    table with the same keyword arguments return the same pair (mean
    error, standard error), whatever hidden states they start from.  A
    fitting procedure that is a function of its inputs is such a library;
    the estimators themselves add no other dependence on the state, and
    they use a fitted model on the test records only. *)
Theorem reruns_agree {St : Type} (hs : fit_st St) (ds : Np.ndarray) (kw : kwargs)
  (s1 s2 : St) :
  (forall i C, (i < 50)%nat -> In C cost_grid ->
               predictions_repeat hs (SVC C 100000 kw)
                                  (select ds i 0) (select ds i 1)) ->
  (forall i, (i < 50)%nat ->
             predictions_repeat hs (Earth 20 4 true)
                                (select ds i 0) (select ds i 1)) ->
  fst (run_st hs (estimate_svc_on_data ds kw) s1)
  = fst (run_st hs (estimate_svc_on_data ds kw) s2) /\
  fst (run_st hs (estimate_mars_on_data ds) s1)
  = fst (run_st hs (estimate_mars_on_data ds) s2).
Proof.
  intros Hsvc Hmars. split.
  - apply (steady_svc_estimate hs ds kw Hsvc).
  - apply (steady_mars_estimate hs ds Hmars).
Qed.

(** The toy tables have no record whose first feature is 99. *)
Lemma toy_features (sim_id : nat) (x : list Q) :
  In x (Np.columns_from 3 (select Toy.ds sim_id 1)) ->
  Qeq_bool (nth 0 x 0) 99 = false.
Proof.
  intros H. unfold Np.columns_from in H. apply in_map_iff in H as (r & <- & Hr).
  apply select_in in Hr as (Hr & _).
  assert (Hall : forallb (fun r => negb (Qeq_bool (nth 0 (skipn 3 r) 0) 99)) Toy.ds
                 = true) by (vm_compute; reflexivity).
  rewrite forallb_forall in Hall. apply Hall in Hr.
  apply negb_true_iff in Hr. exact Hr.
Qed.

Lemma reruns_agree_witness :
  fst (run_st drifting_lib (estimate_svc_on_data Toy.ds Kw.linear) 0)
  = fst (run_st drifting_lib (estimate_svc_on_data Toy.ds Kw.linear) 7) /\
  fst (run_st drifting_lib (estimate_mars_on_data Toy.ds) 0)
  = fst (run_st drifting_lib (estimate_mars_on_data Toy.ds) 7).
Proof.
  apply (reruns_agree drifting_lib Toy.ds Kw.linear 0 7).
  - intros i C _ _ s s' x Hx. unfold drifting_lib. cbn [fst].
    rewrite (toy_features i x Hx). reflexivity.
  - intros i _ s s' x Hx. unfold drifting_lib. cbn [fst].
    rewrite (toy_features i x Hx). reflexivity.
Defined.

(** The hypothesis is needed: a library whose predictions on the test
    records change with its hidden state is within the model, and two
    runs with it need not agree. *)
Example drifting_predictions_differ :
  let hs : fit_st bool :=
    fun _ _ _ s => ((fun _ => if s then 1 else -1), negb s) in
  exists r1 r2,
    fst (run_st hs (mars_error_rates Toy.ds) true) = Some r1 /\
    fst (run_st hs (mars_error_rates Toy.ds) false) = Some r2 /\
    nth 0 r1 0 = 1 # 3 /\ nth 0 r2 0 = 2 # 3.
Proof.
  vm_compute. eexists. eexists. repeat split; reflexivity.
Qed.

(** A library whose fitted model depends on its hidden state is within
    the model, and two runs with it need not agree. *)
Example stateful_library_runs_differ :
  let hs : fit_st bool :=
    fun _ _ _ s => ((fun _ => if s then 1 else -1), negb s) in
  fst (run_st hs (mars_error_rates Toy.ds) true)
  <> fst (run_st hs (mars_error_rates Toy.ds) false).
Proof.
  vm_compute. discriminate.
Qed.

(** ** A prediction of exactly zero *)






(** ** One Bayes error rate for both columns *)

Lemma filter_map_commute {A : Type} (p : A -> bool) (f : A -> A) (l : list A) :
  (forall x, p (f x) = p x) -> filter p (map f l) = map f (filter p l).
Proof.
  intros H. induction l as [|x l IH]; simpl; [reflexivity|].
  rewrite H, IH. destruct (p x); reflexivity.
Qed.

Lemma is_test_upto7 (r : list Q) : is_test (firstn 7 r) = is_test r.
Proof. unfold is_test. rewrite nth_firstn. reflexivity. Qed.

Lemma score_upto7 (a b : Np.ndarray) :
  bayes_score (a ++ Np.columns_upto 7 b) = bayes_score (a ++ b).
Proof.
  unfold bayes_score, Np.sum_axis1, Np.square, Np.columns, Np.columns_upto.
  rewrite !map_app, !map_map. f_equal.
  apply map_ext. intros r.
  rewrite skipn_firstn_comm, firstn_firstn. reflexivity.
Qed.

Lemma labels_upto7 (a b : Np.ndarray) :
  Np.column 2 (a ++ Np.columns_upto 7 b) = Np.column 2 (a ++ b).
Proof.
  unfold Np.column, Np.columns_upto. rewrite !map_app, map_map. f_equal.
  apply map_ext. intros r. rewrite nth_firstn. reflexivity.
Qed.

Module Recorded.
Import String.
Local Open Scope string_scope.

(** The line of the notebook's recorded output, from the value it
    shows. *)
Example bayes_line_recorded :
  Fmt.bayes_line (Some (29 # 1000))
  = "Bayes                   0.029               0.029".
Proof. reflexivity. Qed.

Example bayes_line_toy :
  table_last_line Toy.ds Toy.six_ds
  = "Bayes                   0.010               0.010".
Proof. vm_compute. reflexivity. Qed.

End Recorded.

(** * Further properties of the notebook

    A run without a number ([None]) is an exception in the support-vector
    estimator (the score of a classifier on no record is refused) and a
    [nan] in the spline estimator and in cell 5 (the accuracy of no
    record).  An exception ends the run where it occurs; a [nan] is
    carried to the end of the loop.  What is said below of the calls of a
    run without a number is therefore said of the support-vector
    estimator only.  Where a statement says when a result exists, the
    library is one that may refuse a fit ([fit_opt], [run_opt]). *)

(** ** Records no pass selects *)

Lemma filter_absorb {A : Type} (p q : A -> bool) (l : list A) :
  (forall x, p x = true -> q x = true) ->
  filter p (filter q l) = filter p l.
Proof.
  intros H. induction l as [|x l IH]; simpl; [reflexivity|].
  destruct (q x) eqn:Eq; simpl.
  - rewrite IH. reflexivity.
  - destruct (p x) eqn:Ep; [|exact IH].
    apply H in Ep. congruence.
Qed.

Lemma select_selectable (ds : Np.ndarray) (sim_id : nat) (flag : Q) :
  (sim_id < 50)%nat -> flag = 0 \/ flag = 1 ->
  select (filter selectable ds) sim_id flag = select ds sim_id flag.
Proof.
  intros Hlt Hflag. rewrite !select_filter. apply filter_absorb.
  intros r Hr. apply andb_true_iff in Hr as [Hsim Hf].
  unfold selectable. apply andb_true_iff. split.
  - apply existsb_exists. exists sim_id. split; [|exact Hsim].
    apply in_seq. lia.
  - unfold is_train, is_test.
    destruct Hflag as [-> | ->]; rewrite Hf; [reflexivity|apply orb_true_r].
Qed.

Lemma for_each_ext {X S : Type} (h : fit_fn) (xs : list X)
  (f g : X -> S -> prog S) (s : S) :
  (forall x s', In x xs -> f x s' = g x s') ->
  run h (for_each xs f s) = run h (for_each xs g s) /\
  calls h (for_each xs f s) = calls h (for_each xs g s).
Proof.
  revert s. induction xs as [|x xs IH]; intros s H; simpl; [auto|].
  rewrite !run_bind, !calls_bind, (H x s) by (left; reflexivity).
  assert (Htail : forall s', run h (for_each xs f s') = run h (for_each xs g s')
                             /\ calls h (for_each xs f s')
                                = calls h (for_each xs g s')).
  { intros s'. apply IH. intros y t Hy. apply H. right. exact Hy. }
  destruct (run h (g x s)) as [s'|]; [|auto].
  destruct (Htail s') as [-> ->]. auto.
Qed.

Lemma replicates_selectable (ds : Np.ndarray) (kw : kwargs) (sim_id : nat) :
  (sim_id < 50)%nat ->
  svc_replicate (filter selectable ds) kw sim_id = svc_replicate ds kw sim_id /\
  mars_replicate (filter selectable ds) sim_id = mars_replicate ds sim_id.
Proof.
  intros Hlt. unfold svc_replicate, mars_replicate.
  rewrite !(select_selectable ds sim_id) by auto. auto.
Qed.

(** X2. Records whose replicate id is none of 0..49, or whose flag is
    neither 0 nor 1, have no part in an estimate: with them removed from
    the table each estimator returns the same pair, and the
    support-vector estimator makes the same calls. *)
Theorem estimators_ignore_unselectable (h : fit_fn) (ds : Np.ndarray) (kw : kwargs) :
  run h (estimate_svc_on_data (filter selectable ds) kw)
  = run h (estimate_svc_on_data ds kw) /\
  calls h (estimate_svc_on_data (filter selectable ds) kw)
  = calls h (estimate_svc_on_data ds kw) /\
  run h (estimate_mars_on_data (filter selectable ds))
  = run h (estimate_mars_on_data ds).
Proof.
  assert (Hsvc : run h (svc_error_rates (filter selectable ds) kw)
                 = run h (svc_error_rates ds kw)
                 /\ calls h (svc_error_rates (filter selectable ds) kw)
                    = calls h (svc_error_rates ds kw)).
  { apply for_each_ext. intros i a Hi. apply in_seq in Hi. unfold store.
    destruct (replicates_selectable ds kw i ltac:(lia)) as [-> _].
    reflexivity. }
  assert (Hmars : run h (mars_error_rates (filter selectable ds))
                  = run h (mars_error_rates ds)
                  /\ calls h (mars_error_rates (filter selectable ds))
                     = calls h (mars_error_rates ds)).
  { apply for_each_ext. intros i a Hi. apply in_seq in Hi. unfold store.
    destruct (replicates_selectable ds kw i ltac:(lia)) as [_ ->].
    reflexivity. }
  destruct Hsvc as [Hs1 Hs2]. destruct Hmars as [Hm1 _].
  unfold estimate_svc_on_data, estimate_mars_on_data.
  rewrite !run_bind, !calls_bind, Hs1, Hs2, Hm1. auto.
Qed.

Example unselectable_records_dropped :
  filter selectable ([50; 1; 1; 0; 0; 0; 0] :: [0; 2; 1; 0; 0; 0; 0]
                       :: [1 # 2; 0; 1; 0; 0; 0; 0] :: Toy.rows 0)
  = Toy.rows 0.
Proof. reflexivity. Qed.

(** ** The calls of the support-vector estimator *)

Section SweepCalls.
Variable h : fit_fn.
Variable kw : kwargs.
Variables train_ds test_ds : Np.ndarray.

Let the_call (C : Q) : call :=
  (SVC C 100000 kw, Np.columns_from 3 train_ds, Np.column 2 train_ds).

Lemma calls_svc_try (C : Q) (best : Q * Q) :
  calls h (svc_try kw train_ds test_ds C best) = [the_call C].
Proof.
  unfold svc_try, fit, score, the_call. simpl.
  rewrite calls_bind, calls_of_option, run_of_option.
  destruct (accuracy_score _ _); reflexivity.
Qed.

Lemma calls_sweep (grid : list Q) (best : Q * Q) :
  test_ds <> [] ->
  calls h (for_each grid (svc_try kw train_ds test_ds) best)
  = map the_call grid.
Proof.
  intros Hne. revert best.
  induction grid as [|C grid IH]; intros best; cbn [for_each map];
    [reflexivity|].
  rewrite calls_bind, calls_svc_try, run_svc_try.
  destruct (svc_err_total h kw train_ds test_ds C Hne) as [e ->].
  simpl. rewrite IH. reflexivity.
Qed.

Lemma calls_sweep_fails (C : Q) (grid : list Q) (best : Q * Q) :
  test_ds = [] ->
  calls h (for_each (C :: grid) (svc_try kw train_ds test_ds) best)
  = [the_call C].
Proof.
  intros E. cbn [for_each].
  rewrite calls_bind, calls_svc_try, run_svc_try.
  unfold svc_err. rewrite E. reflexivity.
Qed.
End SweepCalls.

Lemma calls_svc_replicate (h : fit_fn) (ds : Np.ndarray) (kw : kwargs)
  (sim_id : nat) :
  select ds sim_id 1 <> [] ->
  calls h (svc_replicate ds kw sim_id) = map (svc_call ds kw sim_id) cost_grid.
Proof.
  intros Hne. unfold svc_replicate. rewrite calls_bind.
  rewrite (calls_sweep h kw _ _ cost_grid (1, 0) Hne).
  destruct (run h _); cbn [calls]; apply app_nil_r.
Qed.

Lemma calls_svc_replicate_fails (h : fit_fn) (ds : Np.ndarray) (kw : kwargs)
  (sim_id : nat) :
  select ds sim_id 1 = [] ->
  calls h (svc_replicate ds kw sim_id)
  = [svc_call ds kw sim_id (nth 0 cost_grid 0)].
Proof.
  intros E. unfold svc_replicate. rewrite calls_bind.
  assert (Hgrid : exists grid, cost_grid = nth 0 cost_grid 0 :: grid)
    by (eexists; reflexivity).
  destruct Hgrid as [grid Hgrid]. rewrite Hgrid at 1 2.
  rewrite (calls_sweep_fails h kw _ _ _ grid (1, 0) E).
  rewrite (sweep_fails h kw _ _ _ grid (1, 0) E). reflexivity.
Qed.

Lemma flat_map_agree {A B : Type} (f g : A -> list B) (l : list A) :
  (forall x, In x l -> f x = g x) -> flat_map f l = flat_map g l.
Proof.
  induction l as [|x l IH]; intros H; simpl; [reflexivity|].
  rewrite (H x) by (left; reflexivity).
  rewrite IH by (intros y Hy; apply H; right; exact Hy). reflexivity.
Qed.

Lemma svc_calls_of_run (h : fit_fn) (ds : Np.ndarray) (kw : kwargs)
  (rates : list Q) :
  run h (svc_error_rates ds kw) = Some rates ->
  calls h (estimate_svc_on_data ds kw)
  = flat_map (fun sim_id => map (svc_call ds kw sim_id) cost_grid) (seq 0 50).
Proof.
  intros Hrun.
  unfold estimate_svc_on_data. rewrite calls_bind, Hrun. cbn [calls].
  rewrite app_nil_r. unfold svc_error_rates in *.
  rewrite (fill_calls h _ _ _ _ _ Hrun).
  apply svc_rates_inv in Hrun as [_ Hall].
  apply flat_map_agree. intros i Hi. apply in_seq in Hi.
  apply calls_svc_replicate. intros E.
  specialize (Hall i ltac:(lia)).
  rewrite (svc_replicate_fails h ds kw i E) in Hall. discriminate.
Qed.

Lemma svc_calls_length (ds : Np.ndarray) (kw : kwargs) (l : list nat) :
  length (flat_map (fun sim_id => map (svc_call ds kw sim_id) cost_grid) l)
  = (20 * length l)%nat.
Proof.
  induction l as [|i l IH]; cbn [flat_map]; [reflexivity|].
  rewrite length_app, length_map, IH.
  change (length cost_grid) with 20%nat. cbn [length]. lia.
Qed.

(** X3. A completed run of the support-vector estimator makes exactly
    1000 calls: for the replicates 0..49 in turn, one fit per cost of the
    grid in the grid's order, each with that cost, 100000 iterations at
    most and the keyword arguments as given, on the features (columns 3
    on, noise included) and labels of the replicate's training records. *)
Theorem svc_fits_every_cost (h : fit_fn) (ds : Np.ndarray) (kw : kwargs)
  (rates : list Q) :
  run h (svc_error_rates ds kw) = Some rates ->
  calls h (estimate_svc_on_data ds kw)
  = flat_map (fun sim_id => map (svc_call ds kw sim_id) cost_grid) (seq 0 50) /\
  length (calls h (estimate_svc_on_data ds kw)) = 1000%nat.
Proof.
  intros Hrun. pose proof (svc_calls_of_run h ds kw rates Hrun) as Hcalls.
  split; [exact Hcalls|].
  rewrite Hcalls, svc_calls_length, length_seq. reflexivity.
Qed.

Lemma svc_fits_every_cost_witness :
  calls Toy.lib (estimate_svc_on_data Toy.ds Kw.linear)
  = flat_map (fun sim_id => map (svc_call Toy.ds Kw.linear sim_id) cost_grid)
             (seq 0 50) /\
  length (calls Toy.lib (estimate_svc_on_data Toy.ds Kw.linear)) = 1000%nat.
Proof.
  apply (svc_fits_every_cost Toy.lib Toy.ds Kw.linear Toy.svc_rates).
  vm_compute. reflexivity.
Defined.

(** ** When an estimator gives a number *)

(** *** A library that may refuse *)

Section Refusals.
Variable h : fit_opt.

(** While every call is answered, the run is the run with the library
    completed. *)
Lemma run_opt_answered {A : Type} (p : prog A) :
  forallb (answers h) (calls (completed h) p) = true ->
  run_opt h p = run (completed h) p /\
  calls_opt h p = calls (completed h) p.
Proof.
  induction p as [a| |e X y k IH]; cbn [run run_opt calls calls_opt forallb];
    auto.
  intros H. apply andb_true_iff in H as [Hc Hrest].
  unfold answers in Hc. cbn [fst snd] in Hc.
  destruct (h e X y) as [m|] eqn:E; [|discriminate].
  assert (Ec : completed h e X y = m) by (unfold completed; rewrite E; reflexivity).
  rewrite Ec in *. destruct (IH m Hrest) as [-> ->]. auto.
Qed.

(** A run that returns was answered throughout. *)
Lemma run_opt_some {A : Type} (p : prog A) (a : A) :
  run_opt h p = Some a ->
  forallb (answers h) (calls (completed h) p) = true.
Proof.
  induction p as [a'| |e X y k IH]; cbn [run_opt calls forallb]; auto.
  intros H. unfold answers. cbn [fst snd].
  destruct (h e X y) as [m|] eqn:E; [|discriminate].
  assert (Ec : completed h e X y = m) by (unfold completed; rewrite E; reflexivity).
  rewrite Ec. apply (IH m H).
Qed.

(** The first refused call ends the run. *)
Lemma run_opt_refused {A : Type} (p : prog A) (pre post : list call) (c : call) :
  calls (completed h) p = pre ++ c :: post ->
  forallb (answers h) pre = true -> answers h c = false ->
  run_opt h p = None /\ calls_opt h p = pre ++ [c].
Proof.
  revert pre. induction p as [a| |e X y k IH]; intros pre Hcalls Hpre Hc;
    cbn [run_opt calls calls_opt] in *.
  - destruct pre; discriminate.
  - destruct pre; discriminate.
  - destruct pre as [|c' pre]; cbn [app] in Hcalls; injection Hcalls as Hhead Htail.
    + subst c. unfold answers in Hc. cbn [fst snd] in Hc.
      destruct (h e X y); [discriminate|]. auto.
    + subst c'. cbn [forallb] in Hpre. apply andb_true_iff in Hpre as [Hc' Hpre].
      unfold answers in Hc'. cbn [fst snd] in Hc'.
      destruct (h e X y) as [m|] eqn:E; [|discriminate].
      assert (Ec : completed h e X y = m)
        by (unfold completed; rewrite E; reflexivity).
      rewrite Ec in Htail.
      destruct (IH m pre Htail Hpre Hc) as [-> ->]. auto.
Qed.
End Refusals.

Lemma svc_complete_calls (h : fit_fn) (ds : Np.ndarray) (kw : kwargs) :
  has_test_records ds = true ->
  calls h (estimate_svc_on_data ds kw) = svc_calls ds kw.
Proof.
  intros H. destruct (svc_rates_total h ds kw H) as [rates Hrun].
  unfold estimate_svc_on_data. rewrite calls_bind, Hrun. cbn [calls].
  rewrite app_nil_r. unfold svc_error_rates in *.
  rewrite (fill_calls h _ _ _ _ _ Hrun).
  apply flat_map_agree. intros i Hi. apply in_seq in Hi.
  apply calls_svc_replicate, has_test_records_select; [exact H|lia].
Qed.

Lemma mars_complete_calls (h : fit_fn) (ds : Np.ndarray) :
  has_test_records ds = true ->
  calls h (estimate_mars_on_data ds) = mars_calls ds.
Proof.
  intros H. destruct (mars_rates_total h ds H) as [rates Hrun].
  unfold estimate_mars_on_data. rewrite calls_bind, Hrun. cbn [calls].
  rewrite app_nil_r. unfold mars_error_rates in *.
  rewrite (fill_calls h _ _ _ _ _ Hrun). unfold mars_calls.
  generalize (seq 0 50). intros l.
  induction l as [|i l IH]; cbn [flat_map map]; [reflexivity|].
  rewrite calls_mars_replicate, IH. reflexivity.
Qed.

(** X1. With a library that may refuse a fit, each estimator comes back
    with a pair of numbers exactly when every replicate 0..49 of the table
    has at least one test record and the library answers every fit of a
    complete run (the 50 times 20 support-vector fits, the 50 spline
    fits).  Otherwise the run yields no number. *)
Theorem estimators_defined_iff (h : fit_opt) (ds : Np.ndarray) (kw : kwargs) :
  ((exists r, run_opt h (estimate_svc_on_data ds kw) = Some r)
   <-> has_test_records ds = true
       /\ forallb (answers h) (svc_calls ds kw) = true) /\
  ((exists r, run_opt h (estimate_mars_on_data ds) = Some r)
   <-> has_test_records ds = true
       /\ forallb (answers h) (mars_calls ds) = true) /\
  (has_test_records ds = true
   <-> forall sim_id, (sim_id < 50)%nat -> select ds sim_id 1 <> []).
Proof.
  split; [|split].
  - split.
    + intros [r Hr]. pose proof (run_opt_some h _ r Hr) as Hans.
      destruct (run_opt_answered h _ Hans) as [Hrun _]. rewrite Hr in Hrun.
      assert (Hhas : has_test_records ds = true).
      { destruct (has_test_records ds) eqn:E; [reflexivity|].
        destruct (estimators_need_test_records (completed h) ds kw E) as [Hn _].
        congruence. }
      split; [exact Hhas|].
      rewrite <- (svc_complete_calls (completed h) ds kw Hhas). exact Hans.
    + intros [Hhas Hans].
      rewrite <- (svc_complete_calls (completed h) ds kw Hhas) in Hans.
      destruct (run_opt_answered h _ Hans) as [-> _].
      destruct (svc_rates_total (completed h) ds kw Hhas) as [rates Hrun].
      rewrite run_estimate_svc, Hrun. eexists. reflexivity.
  - split.
    + intros [r Hr]. pose proof (run_opt_some h _ r Hr) as Hans.
      destruct (run_opt_answered h _ Hans) as [Hrun _]. rewrite Hr in Hrun.
      assert (Hhas : has_test_records ds = true).
      { destruct (has_test_records ds) eqn:E; [reflexivity|].
        destruct (estimators_need_test_records (completed h) ds kw E) as [_ Hn].
        congruence. }
      split; [exact Hhas|].
      rewrite <- (mars_complete_calls (completed h) ds Hhas). exact Hans.
    + intros [Hhas Hans].
      rewrite <- (mars_complete_calls (completed h) ds Hhas) in Hans.
      destruct (run_opt_answered h _ Hans) as [-> _].
      destruct (mars_rates_total (completed h) ds Hhas) as [rates Hrun].
      rewrite run_estimate_mars, Hrun. eexists. reflexivity.
  - split.
    + intros H sim_id Hlt. apply has_test_records_select; assumption.
    + apply has_test_records_intro.
Qed.

(** On the small table the strict toy library answers every fit; on the
    table whose replicate 0 has test records but no training record it
    refuses the first fit and there is no estimate. *)
Example strict_lib_on_toy :
  forallb (answers strict_lib) (svc_calls Toy.ds Kw.linear) = true /\
  forallb (answers strict_lib) (mars_calls Toy.ds) = true /\
  has_test_records no_train0_ds = true /\
  run_opt strict_lib (svc_error_rates no_train0_ds Kw.linear) = None /\
  run_opt strict_lib (mars_error_rates no_train0_ds) = None.
Proof. vm_compute. repeat split; reflexivity. Qed.

(** ** A replicate without test records *)

Lemma calls_store (h : fit_fn) (body : nat -> prog Q) (i : nat) (a : list Q) :
  calls h (store body i a) = calls h (body i).
Proof.
  unfold store. rewrite calls_bind.
  destruct (run h (body i)); cbn [calls]; apply app_nil_r.
Qed.

(** The loop stops at the first pass that fails. *)
Lemma fill_stops (h : fit_fn) (body : nat -> prog Q) (j s k : nat) (a : list Q) :
  (j < k)%nat ->
  (forall i, (s <= i < s + j)%nat -> run h (body i) <> None) ->
  run h (body (s + j)%nat) = None ->
  run h (for_each (seq s k) (store body) a) = None /\
  calls h (for_each (seq s k) (store body) a)
  = flat_map (fun i => calls h (body i)) (seq s j) ++ calls h (body (s + j)%nat).
Proof.
  revert s k a. induction j as [|j IH]; intros s k a Hlt Hok Hfail;
    (destruct k as [|k]; [lia|]); cbn [seq for_each flat_map];
    rewrite run_bind, calls_bind, run_step, calls_store.
  - rewrite Nat.add_0_r in Hfail. rewrite Hfail. simpl.
    rewrite Nat.add_0_r, app_nil_r. auto.
  - destruct (run h (body s)) as [x|] eqn:Ex;
      [|exfalso; apply (Hok s); [lia|exact Ex]].
    simpl option_map. cbv iota.
    replace (s + S j)%nat with (S s + j)%nat in * by lia.
    destruct (IH (S s) k (Np.set_item a s x)) as [Hrun Hcalls];
      [lia|intros i Hi; apply Hok; lia|exact Hfail|].
    rewrite Hrun, Hcalls, app_assoc. auto.
Qed.

Lemma first_without_test_inv (ds : Np.ndarray) (j : nat) :
  first_without_test ds j = true ->
  (j < 50)%nat /\
  (forall i, (i < j)%nat -> select ds i 1 <> []) /\
  select ds j 1 = [].
Proof.
  unfold first_without_test. intros H.
  apply andb_true_iff in H as [H Hnil].
  apply andb_true_iff in H as [Hlt Hall].
  apply Nat.ltb_lt in Hlt. rewrite forallb_forall in Hall.
  split; [exact Hlt|]. split.
  - intros i Hi E. specialize (Hall i). rewrite in_seq in Hall.
    specialize (Hall ltac:(lia)). rewrite E in Hall. discriminate.
  - destruct (select ds j 1); [reflexivity|discriminate].
Qed.

Lemma svc_run_stops (h : fit_fn) (ds : Np.ndarray) (kw : kwargs) (j : nat) :
  first_without_test ds j = true ->
  run h (estimate_svc_on_data ds kw) = None /\
  calls h (estimate_svc_on_data ds kw) = svc_calls_upto ds kw j.
Proof.
  intros H. apply first_without_test_inv in H as (Hlt & Hbefore & Hempty).
  destruct (fill_stops h (svc_replicate ds kw) j 0 50 (Np.zeros 50) Hlt)
    as [Hsrun Hscalls].
  { intros i Hi. apply svc_replicate_total, Hbefore. lia. }
  { apply svc_replicate_fails, Hempty. }
  simpl plus in *.
  unfold estimate_svc_on_data, svc_calls_upto.
  fold (svc_error_rates ds kw) in Hsrun, Hscalls.
  rewrite !run_bind, !calls_bind, Hsrun, Hscalls, !app_nil_r.
  split; [reflexivity|].
  rewrite (calls_svc_replicate_fails h ds kw j Hempty). f_equal.
  apply flat_map_agree. intros i Hi. apply in_seq in Hi.
  apply calls_svc_replicate, Hbefore. lia.
Qed.

(** X4. When replicate j is the first without a test record and the
    library answers the fits made until then, the support-vector
    estimator ends without a number, and it does so only after fitting:
    it has made all 20 fits of each earlier replicate and the fit with the
    first cost of replicate j, whose score on no record is what fails; no
    later cost and no later replicate is fitted. *)
Theorem run_stops_at_first_empty_replicate (h : fit_opt) (ds : Np.ndarray)
  (kw : kwargs) (j : nat) :
  first_without_test ds j = true ->
  forallb (answers h) (svc_calls_upto ds kw j) = true ->
  run_opt h (estimate_svc_on_data ds kw) = None /\
  calls_opt h (estimate_svc_on_data ds kw)
  = flat_map (fun i => map (svc_call ds kw i) cost_grid) (seq 0 j)
      ++ [svc_call ds kw j (nth 0 cost_grid 0)].
Proof.
  intros H Hans.
  destruct (svc_run_stops (completed h) ds kw j H) as [Hrun Hcalls].
  rewrite <- Hcalls in Hans.
  destruct (run_opt_answered h _ Hans) as [-> ->]. auto.
Qed.

Lemma run_stops_at_first_empty_replicate_witness :
  run_opt strict_lib (estimate_svc_on_data no_test3_ds Kw.linear) = None /\
  calls_opt strict_lib (estimate_svc_on_data no_test3_ds Kw.linear)
  = flat_map (fun i => map (svc_call no_test3_ds Kw.linear i) cost_grid) (seq 0 3)
      ++ [svc_call no_test3_ds Kw.linear 3 (nth 0 cost_grid 0)].
Proof.
  apply (run_stops_at_first_empty_replicate strict_lib no_test3_ds Kw.linear 3).
  - vm_compute. reflexivity.
  - vm_compute. reflexivity.
Defined.

(** ** The cost the sweep keeps *)

Section FirstLeast.
Variable h : fit_fn.
Variable kw : kwargs.
Variables train_ds test_ds : Np.ndarray.
Variable start : Q * Q.

Let err := svc_err h kw train_ds test_ds.

(** What holds of [(best_err, best_C)] after the costs of [seen]. *)
Let kept (seen : list Q) (best : Q * Q) : Prop :=
  (best = start /\
   forall C', In C' seen -> exists e', err C' = Some e' /\ ~ e' < fst start)
  \/ (fst best < fst start /\ first_least err seen (fst best) (snd best)).

Lemma kept_step (seen : list Q) (best : Q * Q) (C e : Q) :
  kept seen best -> err C = Some e ->
  kept (seen ++ [C]) (if Qlt_bool e (fst best) then (e, C) else best).
Proof.
  intros Hkept He. destruct (Qlt_bool e (fst best)) eqn:Elt.
  - apply Qlt_bool_iff in Elt. right. simpl.
    assert (Hall : forall C', In C' seen ->
                              exists e', err C' = Some e' /\ e < e').
    { destruct Hkept as [[-> Hnot]|[Hlt (before & after & -> & HC & Hb & Ha)]].
      - intros C' HC'. destruct (Hnot C' HC') as (e' & He' & Hge).
        exists e'. split; [exact He'|]. apply Qnot_lt_le in Hge. lra.
      - intros C' HC'. apply in_app_or in HC' as [HC'|[<-|HC']].
        + destruct (Hb C' HC') as (e' & He' & Hgt).
          exists e'. split; [exact He'|lra].
        + exists (fst best). split; [exact HC|exact Elt].
        + destruct (Ha C' HC') as (e' & He' & Hge).
          exists e'. split; [exact He'|lra]. }
    split.
    + destruct Hkept as [[-> _]|[Hlt _]]; [exact Elt|lra].
    + exists seen, []. repeat split; [exact He|exact Hall|].
      intros C' [].
  - assert (Hge : fst best <= e).
    { apply Qnot_lt_le. intros Hlt. apply Qlt_bool_iff in Hlt. congruence. }
    destruct Hkept as [[-> Hnot]|[Hlt (before & after & -> & HC & Hb & Ha)]].
    + left. split; [reflexivity|].
      intros C' HC'. apply in_app_or in HC' as [HC'|[<-|[]]].
      * apply Hnot, HC'.
      * exists e. split; [exact He|]. apply Qle_not_lt, Hge.
    + right. split; [exact Hlt|].
      exists before, (after ++ [C]).
      split; [rewrite <- app_assoc; reflexivity|].
      split; [exact HC|]. split; [exact Hb|].
      intros C' HC'. apply in_app_or in HC' as [HC'|[<-|[]]].
      * apply Ha, HC'.
      * exists e. split; [exact He|exact Hge].
Qed.

Lemma kept_sweep (grid seen : list Q) (best best' : Q * Q) :
  kept seen best ->
  run h (for_each grid (svc_try kw train_ds test_ds) best) = Some best' ->
  kept (seen ++ grid) best'.
Proof.
  revert seen best. induction grid as [|C grid IH]; intros seen best Hkept Hrun;
    cbn [for_each] in Hrun.
  - injection Hrun as <-. rewrite app_nil_r. exact Hkept.
  - rewrite run_bind, run_svc_try in Hrun.
    destruct (svc_err h kw train_ds test_ds C) as [e|] eqn:Ee; [|discriminate].
    simpl in Hrun.
    replace (seen ++ C :: grid) with ((seen ++ [C]) ++ grid)
      by (rewrite <- app_assoc; reflexivity).
    apply (IH _ _ (kept_step seen best C e Hkept Ee) Hrun).
Qed.

Lemma kept_start : kept [] start.
Proof. left. split; [reflexivity|]. intros C' []. Qed.
End FirstLeast.

(** X5. After the loop over the grid, either no cost had an error below
    the initial 1 and the pair kept is still (1, 0), every cost having
    error 1; or the error kept is below 1 and the cost kept is the first
    cost of the grid that reaches it, every earlier cost having a strictly
    larger error and no later cost a smaller one. *)
Theorem sweep_keeps_first_minimum (h : fit_fn) (ds : Np.ndarray) (kw : kwargs)
  (sim_id : nat) (best : Q * Q) :
  let train_ds := select ds sim_id 0 in
  let test_ds := select ds sim_id 1 in
  let err := svc_err h kw train_ds test_ds in
  run h (for_each cost_grid (svc_try kw train_ds test_ds) (1, 0)) = Some best ->
  (best = (1, 0) /\
   forall C, In C cost_grid -> exists e, err C = Some e /\ e == 1)
  \/ (fst best < 1 /\ first_least err cost_grid (fst best) (snd best)).
Proof.
  intros train_ds test_ds err Hrun.
  pose proof (kept_sweep h kw train_ds test_ds (1, 0) cost_grid [] (1, 0) best
                (kept_start h kw train_ds test_ds (1, 0)) Hrun) as Hkept.
  cbn [app fst] in Hkept.
  destruct Hkept as [[-> Hnot]|Hleast]; [left|right; exact Hleast].
  split; [reflexivity|]. intros C HC.
  destruct (Hnot C HC) as (e & He & Hge). exists e. split; [exact He|].
  pose proof (svc_err_unit _ _ _ _ _ _ He) as Hunit.
  apply Qnot_lt_le in Hge. lra.
Qed.

Lemma sweep_keeps_first_minimum_witness :
  let err := svc_err Toy.lib Kw.linear (select Toy.ds 0 0) (select Toy.ds 0 1) in
  ((0 # 3, 451000 # 190000) = (1, 0) /\
   forall C, In C cost_grid -> exists e, err C = Some e /\ e == 1)
  \/ (fst (0 # 3, 451000 # 190000) < 1 /\
      first_least err cost_grid (fst (0 # 3, 451000 # 190000))
                  (snd (0 # 3, 451000 # 190000))).
Proof.
  apply (sweep_keeps_first_minimum Toy.lib Toy.ds Kw.linear 0
           (0 # 3, 451000 # 190000)).
  vm_compute. reflexivity.
Defined.

(** ** The Bayes rate of the stacked table *)

Lemma bayes_error_rate_pooled (no_noise_ds six_noise_ds : Np.ndarray) :
  bayes_error_rate no_noise_ds six_noise_ds
  = oracle_error (filter is_test no_noise_ds ++ filter is_test six_noise_ds).
Proof.
  assert (Hrec : bayes_records (bayes_dataset no_noise_ds six_noise_ds)
                 = filter is_test no_noise_ds
                     ++ Np.columns_upto 7 (filter is_test six_noise_ds)).
  { unfold bayes_dataset, Np.vstack, Np.columns_upto.
    rewrite bayes_records_filter, filter_app.
    rewrite (filter_map_commute is_test (firstn 7)) by apply is_test_upto7.
    reflexivity. }
  unfold bayes_error_rate, oracle_error. cbv zeta.
  rewrite Hrec, score_upto7, labels_upto7. reflexivity.
Qed.

Lemma disagreements_app (y1 y2 p1 p2 : list Q) :
  length y1 = length p1 ->
  disagreements (y1 ++ y2) (p1 ++ p2)
  = (disagreements y1 p1 + disagreements y2 p2)%nat.
Proof.
  revert p1. induction y1 as [|t y1 IH]; intros [|q p1] H; simpl in *;
    try discriminate; [reflexivity|].
  injection H as H. rewrite (IH p1 H). lia.
Qed.

Lemma oracle_labels_app (a b : Np.ndarray) :
  Np.column 2 (a ++ b) = Np.column 2 a ++ Np.column 2 b /\
  bayes_y_hat (bayes_score (a ++ b))
  = bayes_y_hat (bayes_score a) ++ bayes_y_hat (bayes_score b).
Proof.
  unfold Np.column, bayes_y_hat, bayes_score, Np.sum_axis1, Np.square,
    Np.columns.
  rewrite !map_app. auto.
Qed.

(** The errors the oracle makes on a set of records. *)
Lemma oracle_error_count (records : Np.ndarray) (b : Q) :
  oracle_error records = Some b ->
  records <> [] /\
  b * Np.of_nat (length records)
  == Np.of_nat (disagreements (Np.column 2 records)
                              (bayes_y_hat (bayes_score records))).
Proof.
  unfold oracle_error. intros H.
  destruct (accuracy_score _ _) as [a|] eqn:Ea; [|discriminate].
  injection H as <-.
  pose proof (error_is_misclassification _ _ _ Ea) as Hrate.
  apply accuracy_score_inv in Ea as (_ & Hne & _).
  assert (Hrec : records <> []) by (intros ->; apply Hne; reflexivity).
  split; [exact Hrec|]. rewrite Hrate. unfold misclassification_rate.
  unfold Np.column at 2. rewrite length_map.
  field. intros E.
  assert (Hpos : 0 < Np.of_nat (length records)).
  { apply of_nat_pos. destruct records; [contradiction|simpl; lia]. }
  lra.
Qed.

Lemma oracle_error_none (records : Np.ndarray) :
  oracle_error records = None <-> records = [].
Proof.
  split.
  - intros H. destruct records as [|r records]; [reflexivity|].
    unfold oracle_error in H.
    rewrite accuracy_score_some in H;
      [discriminate|apply bayes_y_hat_length|discriminate].
  - intros ->. reflexivity.
Qed.

(** X6. The Bayes rate of cell 5 pools the test records of the two
    tables: its number of errors is the sum of the oracle's errors on each
    table, so the rate is the mean of the two tables' rates weighted by
    their numbers of test records; when one table has no test record it
    is the other table's rate, and when neither has one there is no
    number. *)
Theorem bayes_rate_pools_counts (no_noise_ds six_noise_ds : Np.ndarray) :
  let t1 := filter is_test no_noise_ds in
  let t2 := filter is_test six_noise_ds in
  let n1 := Np.of_nat (length t1) in
  let n2 := Np.of_nat (length t2) in
  match oracle_error t1, oracle_error t2 with
  | Some b1, Some b2 =>
      exists b, bayes_error_rate no_noise_ds six_noise_ds = Some b /\
                b * (n1 + n2) == b1 * n1 + b2 * n2
  | Some b1, None => bayes_error_rate no_noise_ds six_noise_ds = Some b1
  | None, Some b2 => bayes_error_rate no_noise_ds six_noise_ds = Some b2
  | None, None => bayes_error_rate no_noise_ds six_noise_ds = None
  end.
Proof.
  intros t1 t2 n1 n2. rewrite bayes_error_rate_pooled. fold t1 t2.
  destruct (oracle_error t1) as [b1|] eqn:E1;
    destruct (oracle_error t2) as [b2|] eqn:E2.
  - destruct (oracle_error (t1 ++ t2)) as [b|] eqn:E.
    + exists b. split; [reflexivity|].
      apply oracle_error_count in E as [_ E].
      apply oracle_error_count in E1 as [_ E1].
      apply oracle_error_count in E2 as [_ E2].
      destruct (oracle_labels_app t1 t2) as [Hy Hp]. rewrite Hy, Hp in E.
      rewrite disagreements_app in E by apply bayes_y_hat_length.
      rewrite length_app, !of_nat_plus in E. fold n1 n2 in E, E1, E2.
      rewrite E, E1, E2. reflexivity.
    + apply oracle_error_none in E. apply oracle_error_count in E1 as [Hne _].
      destruct t1; [contradiction|discriminate].
  - apply oracle_error_none in E2. rewrite E2, app_nil_r. exact E1.
  - apply oracle_error_none in E1. rewrite E1. exact E2.
  - apply oracle_error_none in E1. apply oracle_error_none in E2.
    rewrite E1, E2. reflexivity.
Qed.

Lemma bayes_label_values (score : list Q) :
  Forall (fun l => l = 1 \/ l = -1) (bayes_y_hat score).
Proof.
  unfold bayes_y_hat. apply Forall_map, Forall_forall. intros s _.
  destruct (Qle_bool s 16 && Qle_bool 9 s); [right|left]; reflexivity.
Qed.

(** X7. The oracle never abstains and its rate is a fraction: every label
    it assigns is +1 or -1, the Bayes error rate lies between 0 and 1
    whenever it is a number, and it is a number exactly when the stacked
    table has a test record. *)
Theorem bayes_labels_and_range (no_noise_ds six_noise_ds : Np.ndarray) :
  let records := bayes_records (bayes_dataset no_noise_ds six_noise_ds) in
  Forall (fun l => l = 1 \/ l = -1) (bayes_y_hat (bayes_score records)) /\
  (forall b, bayes_error_rate no_noise_ds six_noise_ds = Some b -> 0 <= b <= 1) /\
  (bayes_error_rate no_noise_ds six_noise_ds = None <-> records = []).
Proof.
  intros records. split; [apply bayes_label_values|]. split.
  - unfold bayes_error_rate. fold records. intros b H.
    destruct (accuracy_score _ _) as [a|] eqn:Ea; [|discriminate].
    injection H as <-. apply accuracy_in_unit in Ea. lra.
  - apply (oracle_error_none records).
Qed.

(** ** The printed Bayes rate *)

Module Layout.
Import String.
Local Open Scope string_scope.

Lemma length_append (s t : string) : length (s ++ t) = (length s + length t)%nat.
Proof. induction s as [|c s IH]; simpl; [reflexivity|]. rewrite IH. reflexivity. Qed.

Lemma length_spaces (n : nat) : length (Fmt.spaces n) = n.
Proof. induction n as [|n IH]; simpl; [reflexivity|]. rewrite IH. reflexivity. Qed.

Lemma length_rjust (w : nat) (s : string) :
  length (Fmt.rjust w s) = Nat.max w (length s).
Proof.
  unfold Fmt.rjust. rewrite length_append, length_spaces. lia.
Qed.

(** The rounding of [x] is an integer nearest to [x]. *)
Lemma round_half_even_nearest (x : Q) :
  let k := inject_Z (Fmt.round_half_even x) in
  (x - k <= 1 # 2 /\ k - x <= 1 # 2)%Q.
Proof.
  destruct x as [n d]. unfold Fmt.round_half_even. cbn [Qnum Qden].
  pose proof (Z.div_mod n (Zpos d) ltac:(lia)) as Hdiv.
  pose proof (Z.mod_pos_bound n (Zpos d) ltac:(lia)) as Hmod.
  set (q := (n / Zpos d)%Z) in *. set (r := (n mod Zpos d)%Z) in *.
  assert (Hcase : forall k : Z,
             (- Zpos d <= 2 * n - 2 * Zpos d * k <= Zpos d)%Z ->
             ((n # d) - inject_Z k <= 1 # 2 /\ inject_Z k - (n # d) <= 1 # 2)%Q).
  { intros k Hk. unfold Qle, Qminus, Qplus, Qopp, inject_Z. cbn [Qnum Qden].
    split; nia. }
  destruct (2 * r <? Zpos d)%Z eqn:E1; [apply Hcase; lia|].
  destruct (Zpos d <? 2 * r)%Z eqn:E2; [apply Hcase; lia|].
  apply Z.ltb_ge in E1, E2.
  destruct (Z.even q); apply Hcase; lia.
Qed.

Lemma round_thousandths_range (b : Q) :
  (0 <= b <= 1)%Q -> (0 <= Fmt.round_half_even (b * 1000) <= 1000)%Z.
Proof.
  intros [H0 H1].
  destruct (round_half_even_nearest (b * 1000)) as [Hlo Hhi]. cbv zeta in *.
  set (k := Fmt.round_half_even (b * 1000)) in *.
  assert (Hk0 : (-(1 # 2) <= inject_Z k)%Q) by lra.
  assert (Hk1 : (inject_Z k <= 1000 + (1 # 2))%Q) by lra.
  unfold Qle, inject_Z in Hk0, Hk1. cbn in Hk0, Hk1. lia.
Qed.

Lemma thousandths_width :
  forallb (fun k => let a := N.of_nat k in
                    (length (Fmt.digits (a / 1000) ++ "." ++ Fmt.pad3 (a mod 1000))
                     =? 5)%nat)
          (seq 0 1001) = true.
Proof. vm_compute. reflexivity. Qed.

(** A fraction between 0 and 1 prints as five characters. *)
Lemma fixed3_width (b : Q) : (0 <= b <= 1)%Q -> length (Fmt.fixed3 b) = 5%nat.
Proof.
  intros Hb. pose proof (round_thousandths_range b Hb) as Hk.
  unfold Fmt.fixed3.
  assert (Hsign : Qlt_bool b 0 = false).
  { destruct (Qlt_bool b 0) eqn:E; [|reflexivity].
    apply Qlt_bool_iff in E. lra. }
  rewrite Hsign.
  set (k := Fmt.round_half_even (b * 1000)) in *.
  pose proof thousandths_width as Hall. rewrite forallb_forall in Hall.
  specialize (Hall (Z.to_nat k)). rewrite in_seq in Hall.
  specialize (Hall ltac:(lia)). cbv zeta in Hall.
  replace (N.of_nat (Z.to_nat k)) with (Z.to_N (Z.abs k)) in Hall by lia.
  apply Nat.eqb_eq in Hall. exact Hall.
Qed.

(** Without a width the field is the text itself. *)
Lemma cell5_text (no_noise_ds six_noise_ds : Np.ndarray) :
  cell5_output no_noise_ds six_noise_ds
  = match bayes_error_rate no_noise_ds six_noise_ds with
    | Some q => Fmt.fixed3 q
    | None => "nan"
    end.
Proof.
  unfold cell5_output, Fmt.float3, Fmt.rjust.
  rewrite Nat.sub_0_l. reflexivity.
Qed.

Lemma rate_text (no_noise_ds six_noise_ds : Np.ndarray) :
  let b := bayes_error_rate no_noise_ds six_noise_ds in
  let t := cell5_output no_noise_ds six_noise_ds in
  match b with
  | Some q =>
      let k := Fmt.round_half_even (q * 1000) in
      (0 <= k <= 1000)%Z /\
      (q * 1000 - inject_Z k <= 1 # 2 /\ inject_Z k - q * 1000 <= 1 # 2)%Q /\
      t = Fmt.digits (Z.to_N k / 1000) ++ "." ++ Fmt.pad3 (Z.to_N k mod 1000) /\
      length t = 5%nat
  | None => t = "nan"
  end.
Proof.
  intros b t. unfold t. rewrite cell5_text. fold b.
  destruct b as [q|] eqn:Eb; [|reflexivity].
  assert (Hq : (0 <= q <= 1)%Q).
  { unfold b, bayes_error_rate in Eb.
    destruct (accuracy_score _ _) as [a|] eqn:Ea; [|discriminate].
    injection Eb as <-. apply accuracy_in_unit in Ea. lra. }
  pose proof (round_thousandths_range q Hq) as Hk.
  cbv zeta. split; [exact Hk|].
  split; [apply (round_half_even_nearest (q * 1000))|].
  assert (Hsign : Qlt_bool q 0 = false).
  { destruct (Qlt_bool q 0) eqn:E; [|reflexivity].
    apply Qlt_bool_iff in E. lra. }
  split.
  - unfold Fmt.fixed3. rewrite Hsign.
    rewrite Z.abs_eq by lia. reflexivity.
  - apply (fixed3_width q Hq).
Qed.

Lemma last_line_text (no_noise_ds six_noise_ds : Np.ndarray) :
  let t := cell5_output no_noise_ds six_noise_ds in
  table_last_line no_noise_ds six_noise_ds
  = "Bayes " ++ (Fmt.spaces (23 - length t) ++ t)
             ++ " " ++ (Fmt.spaces (19 - length t) ++ t).
Proof.
  intros t. unfold t. rewrite cell5_text. reflexivity.
Qed.

Lemma last_line_width (no_noise_ds six_noise_ds : Np.ndarray) :
  length (table_last_line no_noise_ds six_noise_ds) = 49%nat.
Proof.
  rewrite last_line_text.
  pose proof (rate_text no_noise_ds six_noise_ds) as Ht. cbv zeta in Ht.
  set (t := cell5_output no_noise_ds six_noise_ds) in *.
  assert (Hlen : length t = 5%nat \/ length t = 3%nat).
  { destruct (bayes_error_rate no_noise_ds six_noise_ds);
      [left; apply Ht|right; rewrite Ht; reflexivity]. }
  rewrite !length_append, !length_spaces.
  destruct Hlen as [-> | ->]; reflexivity.
Qed.

Lemma thousandths_read_back :
  forallb (fun k => let a := N.of_nat k in
                    match Read.thousandths
                            (Fmt.digits (a / 1000) ++ "." ++ Fmt.pad3 (a mod 1000))
                    with
                    | Some z => (z =? Z.of_nat k)%Z
                    | None => false
                    end)
          (seq 0 1001) = true.
Proof. vm_compute. reflexivity. Qed.

(** The text of a rate reads back as a number of thousandths nearest to
    the rate. *)
Lemma rate_reads_back (no_noise_ds six_noise_ds : Np.ndarray) :
  let b := bayes_error_rate no_noise_ds six_noise_ds in
  let t := cell5_output no_noise_ds six_noise_ds in
  match b with
  | Some q =>
      exists k, Read.thousandths t = Some k /\
                (0 <= k <= 1000)%Z /\
                (q * 1000 - inject_Z k <= 1 # 2 /\ inject_Z k - q * 1000 <= 1 # 2)%Q /\
                length t = 5%nat
  | None => t = Read.nan
  end.
Proof.
  intros b t. pose proof (rate_text no_noise_ds six_noise_ds) as H.
  cbv zeta in H. fold b t in H. destruct b as [q|]; [|exact H].
  destruct H as (Hk & Hnear & Ht & Hlen).
  set (k := Fmt.round_half_even (q * 1000)) in *.
  exists k. split; [|auto].
  pose proof thousandths_read_back as Hall. rewrite forallb_forall in Hall.
  specialize (Hall (Z.to_nat k)). rewrite in_seq in Hall.
  specialize (Hall ltac:(lia)). cbv zeta in Hall.
  replace (N.of_nat (Z.to_nat k)) with (Z.to_N k) in Hall by lia.
  rewrite <- Ht in Hall.
  destruct (Read.thousandths t) as [z|]; [|discriminate].
  apply Z.eqb_eq in Hall. f_equal. lia.
Qed.

(** X8. What the notebook prints of the Bayes rate.  The text of cell 5
    is [nan] when there is no test record; otherwise it has the five
    characters d.ddd and reads back as a number of thousandths that is
    nearest to the rate, at most half a thousandth away (at a tie either
    neighbour is).  The last line of the table is 49 characters long
    whatever the two tables are. *)
Theorem bayes_rate_printed (no_noise_ds six_noise_ds : Np.ndarray) :
  let b := bayes_error_rate no_noise_ds six_noise_ds in
  let t := cell5_output no_noise_ds six_noise_ds in
  match b with
  | Some q =>
      exists k, Read.thousandths t = Some k /\
                (0 <= k <= 1000)%Z /\
                (q * 1000 - inject_Z k <= 1 # 2 /\ inject_Z k - q * 1000 <= 1 # 2)%Q /\
                length t = 5%nat
  | None => t = Read.nan
  end /\
  length (table_last_line no_noise_ds six_noise_ds) = 49%nat.
Proof.
  intros b t. split; [apply rate_reads_back|apply last_line_width].
Qed.

End Layout.

(** ** A standard error of zero *)

Lemma sq_nonneg (y : Q) : 0 <= y ^ 2.
Proof.
  simpl. destruct (Qlt_le_dec y 0) as [Hneg|Hpos].
  - setoid_replace (y * y) with ((- y) * (- y)) by ring.
    apply Qmult_le_0_compat; lra.
  - apply Qmult_le_0_compat; lra.
Qed.

Lemma sum_nonneg (l : list Q) :
  (forall y, In y l -> 0 <= y) -> 0 <= Np.sum l.
Proof.
  induction l as [|x l IH]; intros H; simpl; [lra|].
  assert (0 <= x) by (apply H; left; reflexivity).
  assert (0 <= Np.sum l) by (apply IH; intros y Hy; apply H; right; exact Hy).
  lra.
Qed.

Lemma sum_nonneg_zero (l : list Q) :
  (forall y, In y l -> 0 <= y) -> Np.sum l == 0 -> forall y, In y l -> y == 0.
Proof.
  induction l as [|x l IH]; intros H Hsum y Hy; [destruct Hy|].
  simpl in Hsum.
  assert (Hx : 0 <= x) by (apply H; left; reflexivity).
  assert (Hl : 0 <= Np.sum l)
    by (apply sum_nonneg; intros z Hz; apply H; right; exact Hz).
  destruct Hy as [<-|Hy]; [lra|].
  apply IH; [intros z Hz; apply H; right; exact Hz|lra|exact Hy].
Qed.

Lemma sum_sq_dev_zero (v : list Q) :
  sum_sq_dev 50 v == 0 <-> forall x, In x v -> x == Np.sum v / 50.
Proof.
  unfold sum_sq_dev. set (m := Np.sum v / 50). split.
  - intros H x Hx.
    assert (Hsq : (x - m) ^ 2 == 0).
    { apply (sum_nonneg_zero (map (fun x => (x - m) ^ 2) v)).
      - intros y Hy. apply in_map_iff in Hy as (z & <- & _). apply sq_nonneg.
      - exact H.
      - apply in_map_iff. exists x. split; [reflexivity|exact Hx]. }
    simpl in Hsq. apply Qmult_integral in Hsq. destruct Hsq; lra.
  - intros H. clearbody m.
    induction v as [|x v IH]; simpl; [reflexivity|].
    rewrite IH by (intros y Hy; apply H; right; exact Hy).
    rewrite (H x) by (left; reflexivity). ring.
Qed.

Lemma se_zero_iff (v : list Q) :
  length v = 50%nat ->
  (Np.std v / sqrt 50 = 0)%R <->
  forall i, (i < 50)%nat -> nth i v 0 == Np.mean v.
Proof.
  intros Hlen. rewrite (std_50 v Hlen), (mean_50 v Hlen).
  assert (H50 : (0 < sqrt 50)%R) by (apply sqrt_lt_R0; Lra.lra).
  assert (Hnonneg : 0 <= sum_sq_dev 50 v / 50).
  { apply Qle_shift_div_l; [lra|]. rewrite Qmult_0_l.
    apply sum_nonneg. intros y Hy. apply in_map_iff in Hy as (z & <- & _).
    apply sq_nonneg. }
  assert (Hall : (forall x, In x v -> x == Np.sum v / 50) <->
                 (forall i, (i < 50)%nat -> nth i v 0 == Np.sum v / 50)).
  { split.
    - intros H i Hi. apply H, nth_In. lia.
    - intros H. apply (nth_all (fun x => x == Np.sum v / 50)).
      rewrite Hlen. exact H. }
  rewrite <- Hall, <- sum_sq_dev_zero. split.
  - intros E.
    assert (Esqrt : sqrt (Q2R (sum_sq_dev 50 v / 50)) = 0%R).
    { apply (Rmult_eq_reg_r (/ sqrt 50));
        [|apply Rinv_neq_0_compat, Rgt_not_eq, H50].
      rewrite Rmult_0_l. exact E. }
    apply sqrt_eq_0 in Esqrt;
      [|rewrite <- RMicromega.Q2R_0; apply Qle_Rle, Hnonneg].
    rewrite <- RMicromega.Q2R_0 in Esqrt. apply eqR_Qeq in Esqrt.
    assert (H : sum_sq_dev 50 v == (sum_sq_dev 50 v / 50) * 50) by (field).
    rewrite H, Esqrt. ring.
  - intros E.
    assert (Hq : sum_sq_dev 50 v / 50 == 0) by (rewrite E; reflexivity).
    rewrite (Qeq_eqR _ _ Hq), RMicromega.Q2R_0, sqrt_0.
    unfold Rdiv. apply Rmult_0_l.
Qed.

(** X9. The standard error an estimator returns is 0 exactly when all 50
    stored per-replicate error rates are equal (to the mean returned). *)
Theorem se_zero_iff_constant (h : fit_fn) (ds : Np.ndarray) (kw : kwargs) :
  has_test_records ds = true ->
  (exists rates m s,
      run h (svc_error_rates ds kw) = Some rates /\
      run h (estimate_svc_on_data ds kw) = Some (m, s) /\
      (s = 0%R <-> forall i, (i < 50)%nat -> nth i rates 0 == m)) /\
  (exists rates m s,
      run h (mars_error_rates ds) = Some rates /\
      run h (estimate_mars_on_data ds) = Some (m, s) /\
      (s = 0%R <-> forall i, (i < 50)%nat -> nth i rates 0 == m)).
Proof.
  intros H. split.
  - destruct (svc_rates_total h ds kw H) as [rates Hrun].
    destruct (svc_rates_inv h ds kw rates Hrun) as [Hlen _].
    exists rates, (Np.mean rates), (Np.std rates / sqrt 50)%R.
    rewrite run_estimate_svc, Hrun.
    split; [reflexivity|]. split; [reflexivity|]. apply se_zero_iff, Hlen.
  - destruct (mars_rates_total h ds H) as [rates Hrun].
    destruct (mars_rates_inv h ds rates Hrun) as [Hlen _].
    exists rates, (Np.mean rates), (Np.std rates / sqrt 50)%R.
    rewrite run_estimate_mars, Hrun.
    split; [reflexivity|]. split; [reflexivity|]. apply se_zero_iff, Hlen.
Qed.

Lemma se_zero_iff_constant_witness :
  (exists rates m s,
      run Toy.lib (svc_error_rates clean_ds Kw.linear) = Some rates /\
      run Toy.lib (estimate_svc_on_data clean_ds Kw.linear) = Some (m, s) /\
      (s = 0%R <-> forall i, (i < 50)%nat -> nth i rates 0 == m)) /\
  (exists rates m s,
      run Toy.lib (mars_error_rates clean_ds) = Some rates /\
      run Toy.lib (estimate_mars_on_data clean_ds) = Some (m, s) /\
      (s = 0%R <-> forall i, (i < 50)%nat -> nth i rates 0 == m)).
Proof.
  apply (se_zero_iff_constant Toy.lib clean_ds Kw.linear).
  vm_compute. reflexivity.
Defined.

(** ** Both tables, every method *)

Lemma svc_estimate_complete (h : fit_fn) (ds : Np.ndarray) (kw : kwargs) :
  has_test_records ds = true ->
  exists e, run h (estimate_svc_on_data ds kw) = Some e /\
            estimate_in_range e /\
            length (calls h (estimate_svc_on_data ds kw)) = 1000%nat.
Proof.
  intros H. destruct (svc_rates_total h ds kw H) as [rates Hrun].
  destruct (svc_rates_inv h ds kw rates Hrun) as [Hlen Hall].
  exists (Np.mean rates, (Np.std rates / sqrt 50)%R).
  rewrite run_estimate_svc, Hrun. split; [reflexivity|]. split.
  - apply fifty_unit_values; [exact Hlen|].
    intros i Hi. apply (svc_replicate_unit h ds kw i), Hall, Hi.
  - rewrite (svc_calls_of_run h ds kw rates Hrun), svc_calls_length, length_seq.
    reflexivity.
Qed.

Lemma mars_calls_of_run (h : fit_fn) (ds : Np.ndarray) (rates : list Q) :
  run h (mars_error_rates ds) = Some rates ->
  calls h (estimate_mars_on_data ds) = map (mars_call ds) (seq 0 50).
Proof.
  intros Hrun. unfold estimate_mars_on_data.
  rewrite calls_bind, Hrun. cbn [calls]. rewrite app_nil_r.
  unfold mars_error_rates in *. rewrite (fill_calls h _ _ _ _ _ Hrun).
  generalize (seq 0 50). intros l.
  induction l as [|i l IH]; cbn [flat_map map]; [reflexivity|].
  rewrite calls_mars_replicate, IH. reflexivity.
Qed.

Lemma mars_estimate_complete (h : fit_fn) (ds : Np.ndarray) :
  has_test_records ds = true ->
  exists e, run h (estimate_mars_on_data ds) = Some e /\
            estimate_in_range e /\
            length (calls h (estimate_mars_on_data ds)) = 50%nat.
Proof.
  intros H. destruct (mars_rates_total h ds H) as [rates Hrun].
  destruct (mars_rates_inv h ds rates Hrun) as [Hlen Hall].
  exists (Np.mean rates, (Np.std rates / sqrt 50)%R).
  rewrite run_estimate_mars, Hrun. split; [reflexivity|]. split.
  - apply fifty_unit_values; [exact Hlen|].
    intros i Hi. apply (mars_replicate_unit h ds i), Hall, Hi.
  - rewrite (mars_calls_of_run h ds rates Hrun), length_map, length_seq.
    reflexivity.
Qed.

Section Pairs.
Variable h : fit_fn.
Variables no_noise_ds six_noise_ds : Np.ndarray.

Lemma run_svc_pair (kw : kwargs) :
  run h (estimate_svc_without_and_with_noise no_noise_ds six_noise_ds kw)
  = side_by_side (run h (estimate_svc_on_data no_noise_ds kw))
                 (run h (estimate_svc_on_data six_noise_ds kw)).
Proof.
  unfold estimate_svc_without_and_with_noise. rewrite run_bind.
  destruct (run h (estimate_svc_on_data no_noise_ds kw)) as [a|];
    [|reflexivity].
  rewrite run_bind.
  destruct (run h (estimate_svc_on_data six_noise_ds kw)); reflexivity.
Qed.

Lemma calls_svc_pair (kw : kwargs) :
  calls h (estimate_svc_without_and_with_noise no_noise_ds six_noise_ds kw)
  = calls h (estimate_svc_on_data no_noise_ds kw)
      ++ match run h (estimate_svc_on_data no_noise_ds kw) with
         | Some _ => calls h (estimate_svc_on_data six_noise_ds kw)
         | None => []
         end.
Proof.
  unfold estimate_svc_without_and_with_noise. rewrite calls_bind.
  destruct (run h (estimate_svc_on_data no_noise_ds kw)) as [a|];
    [|reflexivity].
  rewrite calls_bind.
  destruct (run h (estimate_svc_on_data six_noise_ds kw));
    cbn [calls]; rewrite app_nil_r; reflexivity.
Qed.

Lemma run_mars_pair :
  run h (mars_results no_noise_ds six_noise_ds)
  = side_by_side (run h (estimate_mars_on_data no_noise_ds))
                 (run h (estimate_mars_on_data six_noise_ds)).
Proof.
  unfold mars_results. rewrite run_bind.
  destruct (run h (estimate_mars_on_data no_noise_ds)) as [a|]; [|reflexivity].
  rewrite run_bind.
  destruct (run h (estimate_mars_on_data six_noise_ds)); reflexivity.
Qed.

Lemma calls_mars_pair :
  calls h (mars_results no_noise_ds six_noise_ds)
  = calls h (estimate_mars_on_data no_noise_ds)
      ++ match run h (estimate_mars_on_data no_noise_ds) with
         | Some _ => calls h (estimate_mars_on_data six_noise_ds)
         | None => []
         end.
Proof.
  unfold mars_results. rewrite calls_bind.
  destruct (run h (estimate_mars_on_data no_noise_ds)) as [a|]; [|reflexivity].
  rewrite calls_bind.
  destruct (run h (estimate_mars_on_data six_noise_ds));
    cbn [calls]; rewrite app_nil_r; reflexivity.
Qed.

Lemma svc_pair_complete (kw : kwargs) :
  has_test_records no_noise_ds = true ->
  has_test_records six_noise_ds = true ->
  exists r,
    run h (estimate_svc_without_and_with_noise no_noise_ds six_noise_ds kw)
    = Some r /\
    result_in_range r /\
    length (calls h (estimate_svc_without_and_with_noise
                       no_noise_ds six_noise_ds kw)) = 2000%nat.
Proof.
  intros H1 H2.
  destruct (svc_estimate_complete h no_noise_ds kw H1) as ([m1 s1] & R1 & B1 & C1).
  destruct (svc_estimate_complete h six_noise_ds kw H2) as ([m2 s2] & R2 & B2 & C2).
  exists (m1, s1, m2, s2).
  rewrite run_svc_pair, calls_svc_pair, R1, R2, length_app, C1, C2.
  split; [reflexivity|]. split; [split; assumption|reflexivity].
Qed.

Lemma mars_pair_complete :
  has_test_records no_noise_ds = true ->
  has_test_records six_noise_ds = true ->
  exists r,
    run h (mars_results no_noise_ds six_noise_ds) = Some r /\
    result_in_range r /\
    length (calls h (mars_results no_noise_ds six_noise_ds)) = 100%nat.
Proof.
  intros H1 H2.
  destruct (mars_estimate_complete h no_noise_ds H1) as ([m1 s1] & R1 & B1 & C1).
  destruct (mars_estimate_complete h six_noise_ds H2) as ([m2 s2] & R2 & B2 & C2).
  exists (m1, s1, m2, s2).
  rewrite run_mars_pair, calls_mars_pair, R1, R2, length_app, C1, C2.
  split; [reflexivity|]. split; [split; assumption|reflexivity].
Qed.
End Pairs.

Lemma estimate_needs_test_records (h : fit_fn) (ds : Np.ndarray) (kw : kwargs) :
  (run h (estimate_svc_on_data ds kw) <> None -> has_test_records ds = true) /\
  (run h (estimate_mars_on_data ds) <> None -> has_test_records ds = true).
Proof.
  destruct (has_test_records ds) eqn:E; [auto|].
  destruct (estimators_need_test_records h ds kw E) as [H1 H2].
  split; intros H; contradiction.
Qed.

(** X10. [estimate_svc_without_and_with_noise] returns the estimate of
    the noise-free table followed by that of the noisy table when both
    estimates exist, and nothing otherwise.  The noisy table is estimated
    second: when a replicate of the noise-free table has no test record
    the run ends with the calls made on that table and the noisy table is
    never fitted; otherwise the calls on the noisy table follow those on
    the noise-free one. *)
Theorem noisy_table_is_estimated_second (h : fit_fn)
  (no_noise_ds six_noise_ds : Np.ndarray) (kw : kwargs) :
  run h (estimate_svc_without_and_with_noise no_noise_ds six_noise_ds kw)
  = side_by_side (run h (estimate_svc_on_data no_noise_ds kw))
                 (run h (estimate_svc_on_data six_noise_ds kw)) /\
  (has_test_records no_noise_ds = false ->
   calls h (estimate_svc_without_and_with_noise no_noise_ds six_noise_ds kw)
   = calls h (estimate_svc_on_data no_noise_ds kw)) /\
  (has_test_records no_noise_ds = true ->
   calls h (estimate_svc_without_and_with_noise no_noise_ds six_noise_ds kw)
   = calls h (estimate_svc_on_data no_noise_ds kw)
       ++ calls h (estimate_svc_on_data six_noise_ds kw)).
Proof.
  split; [apply run_svc_pair|].
  rewrite calls_svc_pair. split; intros H.
  - destruct (estimators_need_test_records h no_noise_ds kw H) as [-> _].
    apply app_nil_r.
  - destruct (svc_estimate_complete h no_noise_ds kw H) as (e1 & -> & _).
    reflexivity.
Qed.

Lemma noisy_table_is_estimated_second_witness :
  calls Toy.lib (estimate_svc_without_and_with_noise short_ds Toy.six_ds Kw.linear)
  = calls Toy.lib (estimate_svc_on_data short_ds Kw.linear).
Proof.
  apply (noisy_table_is_estimated_second Toy.lib short_ds Toy.six_ds Kw.linear).
  vm_compute. reflexivity.
Defined.

Lemma notebook_results_of_tables (h : fit_fn)
  (no_noise_ds six_noise_ds : Np.ndarray) :
  has_test_records no_noise_ds = true ->
  has_test_records six_noise_ds = true ->
  exists results,
    run h (notebook_results no_noise_ds six_noise_ds) = Some results /\
    length results = 5%nat /\
    Forall result_in_range results /\
    length (calls h (notebook_results no_noise_ds six_noise_ds)) = (4 * 2000 + 100)%nat.
Proof.
  intros H1 H2.
  destruct (svc_pair_complete h _ _ Kw.linear H1 H2) as (r1 & R1 & B1 & C1).
  destruct (svc_pair_complete h _ _ (Kw.poly 2) H1 H2) as (r2 & R2 & B2 & C2).
  destruct (svc_pair_complete h _ _ (Kw.poly 5) H1 H2) as (r3 & R3 & B3 & C3).
  destruct (svc_pair_complete h _ _ (Kw.poly 10) H1 H2) as (r4 & R4 & B4 & C4).
  destruct (mars_pair_complete h _ _ H1 H2) as (r5 & R5 & B5 & C5).
  exists [r1; r2; r3; r4; r5]. unfold notebook_results.
  repeat (rewrite run_bind; rewrite ?R1, ?R2, ?R3, ?R4, ?R5).
  split; [reflexivity|]. split; [reflexivity|].
  split; [repeat constructor; assumption|].
  repeat (rewrite calls_bind; rewrite ?R1, ?R2, ?R3, ?R4, ?R5).
  cbn [calls]. rewrite !length_app, C1, C2, C3, C4, C5. reflexivity.
Qed.

Lemma notebook_needs_test_records (h : fit_fn)
  (no_noise_ds six_noise_ds : Np.ndarray) (results : list (Q * R * Q * R)) :
  run h (notebook_results no_noise_ds six_noise_ds) = Some results ->
  has_test_records no_noise_ds = true /\ has_test_records six_noise_ds = true.
Proof.
  intros Hrun. unfold notebook_results in Hrun.
  rewrite run_bind, run_svc_pair in Hrun.
  destruct (run h (estimate_svc_on_data no_noise_ds Kw.linear)) as [a|] eqn:Ea;
    [|discriminate].
  destruct (run h (estimate_svc_on_data six_noise_ds Kw.linear)) as [b|] eqn:Eb;
    [|discriminate].
  split.
  - apply (proj1 (estimate_needs_test_records h no_noise_ds Kw.linear)).
    rewrite Ea. discriminate.
  - apply (proj1 (estimate_needs_test_records h six_noise_ds Kw.linear)).
    rewrite Eb. discriminate.
Qed.

Lemma notebook_calls_of_tables (h : fit_fn)
  (no_noise_ds six_noise_ds : Np.ndarray) :
  has_test_records no_noise_ds = true ->
  has_test_records six_noise_ds = true ->
  calls h (notebook_results no_noise_ds six_noise_ds)
  = notebook_calls no_noise_ds six_noise_ds.
Proof.
  intros H1 H2.
  assert (Hpair : forall kw,
             calls h (estimate_svc_without_and_with_noise
                        no_noise_ds six_noise_ds kw)
             = svc_calls no_noise_ds kw ++ svc_calls six_noise_ds kw).
  { intros kw. rewrite calls_svc_pair.
    destruct (svc_estimate_complete h no_noise_ds kw H1) as (e & -> & _).
    rewrite !svc_complete_calls by assumption. reflexivity. }
  assert (Hmars : calls h (mars_results no_noise_ds six_noise_ds)
                  = mars_calls no_noise_ds ++ mars_calls six_noise_ds).
  { rewrite calls_mars_pair.
    destruct (mars_estimate_complete h no_noise_ds H1) as (e & -> & _).
    rewrite !mars_complete_calls by assumption. reflexivity. }
  destruct (svc_pair_complete h _ _ Kw.linear H1 H2) as (r1 & R1 & _).
  destruct (svc_pair_complete h _ _ (Kw.poly 2) H1 H2) as (r2 & R2 & _).
  destruct (svc_pair_complete h _ _ (Kw.poly 5) H1 H2) as (r3 & R3 & _).
  destruct (svc_pair_complete h _ _ (Kw.poly 10) H1 H2) as (r4 & R4 & _).
  destruct (mars_pair_complete h _ _ H1 H2) as (r5 & R5 & _).
  unfold notebook_results, notebook_calls.
  repeat (rewrite calls_bind; rewrite ?R1, ?R2, ?R3, ?R4, ?R5).
  rewrite !Hpair, Hmars. cbn [calls flat_map].
  rewrite !app_nil_r, <- !app_assoc. reflexivity.
Qed.

(** X11. Cells 8 and 12 together, with a library that may refuse a fit.
    The list [results] of the table exists exactly when each of the
    replicates 0..49 has a test record in both tables and the library
    answers every fit of the run.  It then has five entries (the four
    support-vector settings and the spline model), each with both means
    between 0 and 1 and both standard errors between 0 and one over the
    square root of 50, and has cost 8100 fits: 4 settings times 2 tables
    times 50 replicates times 20 costs, and 2 times 50 spline fits. *)
Theorem notebook_results_complete (h : fit_opt)
  (no_noise_ds six_noise_ds : Np.ndarray) :
  ((exists results,
       run_opt h (notebook_results no_noise_ds six_noise_ds) = Some results)
   <-> has_test_records no_noise_ds = true
       /\ has_test_records six_noise_ds = true
       /\ forallb (answers h) (notebook_calls no_noise_ds six_noise_ds) = true) /\
  (forall results,
      run_opt h (notebook_results no_noise_ds six_noise_ds) = Some results ->
      length results = 5%nat /\
      Forall result_in_range results /\
      calls_opt h (notebook_results no_noise_ds six_noise_ds)
      = notebook_calls no_noise_ds six_noise_ds /\
      length (notebook_calls no_noise_ds six_noise_ds) = (4 * 2000 + 100)%nat).
Proof.
  assert (Hsome : forall results,
             run_opt h (notebook_results no_noise_ds six_noise_ds) = Some results ->
             run (completed h) (notebook_results no_noise_ds six_noise_ds)
             = Some results
             /\ calls_opt h (notebook_results no_noise_ds six_noise_ds)
                = notebook_calls no_noise_ds six_noise_ds
             /\ has_test_records no_noise_ds = true
             /\ has_test_records six_noise_ds = true
             /\ forallb (answers h) (notebook_calls no_noise_ds six_noise_ds)
                = true).
  { intros results Hr. pose proof (run_opt_some h _ results Hr) as Hans.
    destruct (run_opt_answered h _ Hans) as [Hrun Hcalls].
    rewrite Hr in Hrun. symmetry in Hrun.
    destruct (notebook_needs_test_records _ _ _ _ Hrun) as [H1 H2].
    rewrite (notebook_calls_of_tables (completed h) _ _ H1 H2) in Hans, Hcalls.
    auto 6. }
  split.
  - split.
    + intros [results Hr]. destruct (Hsome results Hr) as (_ & _ & H1 & H2 & Hans).
      auto.
    + intros (H1 & H2 & Hans).
      rewrite <- (notebook_calls_of_tables (completed h) _ _ H1 H2) in Hans.
      destruct (run_opt_answered h _ Hans) as [-> _].
      destruct (notebook_results_of_tables (completed h) _ _ H1 H2)
        as (results & Hrun & _).
      exists results. exact Hrun.
  - intros results Hr. destruct (Hsome results Hr) as (Hrun & Hcalls & H1 & H2 & _).
    destruct (notebook_results_of_tables (completed h) _ _ H1 H2)
      as (results' & Hrun' & Hlen & Hall & Hcount).
    rewrite Hrun in Hrun'. injection Hrun' as <-.
    rewrite (notebook_calls_of_tables (completed h) _ _ H1 H2) in Hcount.
    auto.
Qed.

Lemma notebook_results_complete_witness :
  exists results,
    run_opt strict_lib (notebook_results Toy.ds Toy.six_ds) = Some results.
Proof.
  apply (notebook_results_complete strict_lib Toy.ds Toy.six_ds).
  repeat split; vm_compute; reflexivity.
Defined.

(** ** The width of the table *)

Module TableLayout.
Import String.
Local Open Scope string_scope.

Lemma round_range (x : R) :
  (0 <= x <= 1000)%R -> (0 <= Table.round_half_even x <= 1000)%Z.
Proof.
  intros [H0 H1]. unfold Table.round_half_even.
  destruct (archimed x) as [Hup Hdown].
  set (q := (up x - 1)%Z).
  assert (Hq : IZR q = (IZR (up x) - 1)%R) by (unfold q; apply minus_IZR).
  assert (Hq0 : (0 <= q)%Z).
  { apply Z.lt_succ_r, lt_IZR. rewrite succ_IZR. Lra.lra. }
  assert (Hq1 : (q <= 1000)%Z) by (apply le_IZR; Lra.lra).
  destruct (Rlt_dec (2 * (x - IZR q)) 1) as [Hlt|Hge]; [lia|].
  assert (Hne : q <> 1000%Z).
  { intros E. rewrite E in Hge. apply Hge. Lra.lra. }
  destruct (Rlt_dec 1 (2 * (x - IZR q))); [lia|].
  destruct (Z.even q); lia.
Qed.

(** A real number between 0 and 1 prints as five characters. *)
Lemma real_fixed3_width (s : R) : (0 <= s <= 1)%R -> length (Table.fixed3 s) = 5%nat.
Proof.
  intros Hs. unfold Table.fixed3.
  assert (Hk : (0 <= Table.round_half_even (s * 1000) <= 1000)%Z)
    by (apply round_range; Lra.lra).
  destruct (Rlt_dec s 0) as [Hneg|_]; [Lra.lra|].
  set (k := Table.round_half_even (s * 1000)) in *.
  pose proof Layout.thousandths_width as Hall. rewrite forallb_forall in Hall.
  specialize (Hall (Z.to_nat k)). rewrite in_seq in Hall.
  specialize (Hall ltac:(lia)). cbv zeta in Hall.
  replace (N.of_nat (Z.to_nat k)) with (Z.to_N (Z.abs k)) in Hall by lia.
  apply Nat.eqb_eq in Hall. exact Hall.
Qed.

Lemma se_bound : (1 / sqrt 50 <= 1)%R.
Proof.
  assert (H1 : (1 <= sqrt 50)%R).
  { rewrite <- sqrt_1 at 1. apply sqrt_le_1; Lra.lra. }
  apply (Rmult_le_reg_r (sqrt 50)); [Lra.lra|].
  unfold Rdiv. rewrite Rmult_assoc, Rinv_l by Lra.lra. Lra.lra.
Qed.

Lemma row_width (name : string) (r : Q * R * Q * R) :
  result_in_range r -> (length name <= 20)%nat ->
  length (Table.row name r) = 53%nat.
Proof.
  destruct r as [[[m1 s1] m2] s2]. intros [[Hm1 Hs1] [Hm2 Hs2]] Hname.
  cbn [fst snd] in *. pose proof se_bound as Hse.
  unfold Table.row, Table.ljust.
  rewrite !Layout.length_append, Layout.length_spaces.
  rewrite !(Layout.fixed3_width _ Hm1), !(Layout.fixed3_width _ Hm2).
  rewrite (real_fixed3_width s1) by Lra.lra.
  rewrite (real_fixed3_width s2) by Lra.lra.
  cbn [length]. lia.
Qed.

Lemma table_widths (results : list (Q * R * Q * R)) (b : option Q) (w : nat) :
  List.length results = 5%nat -> Forall result_in_range results ->
  length (Fmt.bayes_line b) = w ->
  map length (Table.print_table results b) = [44; 56; 58; 53; 53; 53; 53; 53; w]%nat.
Proof.
  intros Hlen Hall Hb.
  destruct results as [|r1 [|r2 [|r3 [|r4 [|r5 [|r6 results]]]]]];
    try discriminate Hlen.
  inversion Hall as [|? ? B1 Hall1]; subst.
  inversion Hall1 as [|? ? B2 Hall2]; subst.
  inversion Hall2 as [|? ? B3 Hall3]; subst.
  inversion Hall3 as [|? ? B4 Hall4]; subst.
  inversion Hall4 as [|? ? B5 _]; subst.
  unfold Table.print_table, Table.header, Table.names.
  cbn [combine map app fst snd].
  rewrite !row_width by (assumption || (cbn; lia)).
  reflexivity.
Qed.

(** X12. When every replicate 0..49 has a test record in both tables,
    cell 13 prints nine lines of fixed widths: the three lines of the
    heading (44, 56 and 58 characters), five method lines of 53 characters
    each (the name in 20 columns, then twice a mean and a standard error in
    parentheses, all with three decimals), and the line of the Bayes rate
    of 49 characters. *)
Theorem table_line_widths (h : fit_fn) (no_noise_ds six_noise_ds : Np.ndarray) :
  has_test_records no_noise_ds = true ->
  has_test_records six_noise_ds = true ->
  exists lines,
    run h (cell13_output no_noise_ds six_noise_ds) = Some lines /\
    map length lines = [44; 56; 58; 53; 53; 53; 53; 53; 49]%nat.
Proof.
  intros H1 H2.
  destruct (notebook_results_of_tables h _ _ H1 H2)
    as (results & Hrun & Hlen & Hall & _).
  unfold cell13_output. rewrite run_bind, Hrun.
  eexists. split; [reflexivity|].
  apply (table_widths results _ 49 Hlen Hall).
  apply Layout.last_line_width.
Qed.

Lemma table_line_widths_witness :
  exists lines,
    run Toy.lib (cell13_output Toy.ds Toy.six_ds) = Some lines /\
    map length lines = [44; 56; 58; 53; 53; 53; 53; 53; 49]%nat.
Proof.
  apply (table_line_widths Toy.lib Toy.ds Toy.six_ds).
  - vm_compute. reflexivity.
  - vm_compute. reflexivity.
Defined.

End TableLayout.

(** ** The two formatters agree *)

Module Formats.

(** On a rational number the rounding of reals is the rounding of
    rationals. *)
Lemma round_half_even_Q2R (x : Q) :
  Table.round_half_even (Q2R x) = Fmt.round_half_even x.
Proof.
  destruct x as [n d]. unfold Table.round_half_even, Fmt.round_half_even, Q2R.
  cbn [Qnum Qden].
  pose proof (Z.div_mod n (Zpos d) ltac:(lia)) as Hdiv.
  pose proof (Z.mod_pos_bound n (Zpos d) ltac:(lia)) as Hmod.
  set (q := (n / Zpos d)%Z) in *. set (r := (n mod Zpos d)%Z) in *.
  assert (HD : (0 < IZR (Zpos d))%R) by (apply IZR_lt; lia).
  assert (Hx : (IZR n * / IZR (Zpos d) = IZR q + IZR r / IZR (Zpos d))%R).
  { rewrite Hdiv at 1. rewrite plus_IZR, mult_IZR. field. Lra.lra. }
  assert (Hr0 : (0 <= IZR r / IZR (Zpos d))%R).
  { apply Rmult_le_pos; [apply IZR_le; lia|].
    left. apply Rinv_0_lt_compat, HD. }
  assert (Hr1 : (IZR r / IZR (Zpos d) < 1)%R).
  { apply (Rmult_lt_reg_r (IZR (Zpos d))); [exact HD|].
    unfold Rdiv. rewrite Rmult_assoc, Rinv_l, Rmult_1_r, Rmult_1_l by Lra.lra.
    apply IZR_lt. lia. }
  rewrite Hx.
  assert (Hup : (up (IZR q + IZR r / IZR (Zpos d)) = q + 1)%Z).
  { symmetry. apply tech_up; rewrite plus_IZR; Lra.lra. }
  rewrite Hup. replace (q + 1 - 1)%Z with q by lia.
  replace (2 * (IZR q + IZR r / IZR (Zpos d) - IZR q))%R
    with (IZR (2 * r) / IZR (Zpos d))%R
    by (rewrite mult_IZR; unfold Rdiv; Lra.lra).
  assert (Hcmp : forall a : Z,
             ((IZR a / IZR (Zpos d) < 1)%R <-> (a < Zpos d)%Z) /\
             ((1 < IZR a / IZR (Zpos d))%R <-> (Zpos d < a)%Z)).
  { intros a. split; split; intros H.
    - apply lt_IZR. apply (Rmult_lt_compat_r _ _ _ HD) in H.
      unfold Rdiv in H.
      rewrite Rmult_assoc, Rinv_l, Rmult_1_r, Rmult_1_l in H by Lra.lra.
      exact H.
    - apply IZR_lt in H. apply (Rmult_lt_reg_r (IZR (Zpos d))); [exact HD|].
      unfold Rdiv. rewrite Rmult_assoc, Rinv_l, Rmult_1_r, Rmult_1_l by Lra.lra.
      exact H.
    - apply lt_IZR. apply (Rmult_lt_compat_r _ _ _ HD) in H.
      unfold Rdiv in H.
      rewrite Rmult_assoc, Rinv_l, Rmult_1_r, Rmult_1_l in H by Lra.lra.
      exact H.
    - apply IZR_lt in H. apply (Rmult_lt_reg_r (IZR (Zpos d))); [exact HD|].
      unfold Rdiv. rewrite Rmult_assoc, Rinv_l, Rmult_1_r, Rmult_1_l by Lra.lra.
      exact H. }
  destruct (Hcmp (2 * r)%Z) as [Hlt Hgt].
  destruct (Rlt_dec (IZR (2 * r) / IZR (Zpos d)) 1) as [H1|H1].
  - apply Hlt in H1. apply Z.ltb_lt in H1. rewrite H1. reflexivity.
  - assert (E1 : (2 * r <? Zpos d)%Z = false).
    { apply Z.ltb_ge. apply Z.nlt_ge. intros H. apply H1, Hlt, H. }
    rewrite E1.
    destruct (Rlt_dec 1 (IZR (2 * r) / IZR (Zpos d))) as [H2|H2].
    + apply Hgt in H2. apply Z.ltb_lt in H2. rewrite H2. reflexivity.
    + assert (E2 : (Zpos d <? 2 * r)%Z = false).
      { apply Z.ltb_ge. apply Z.nlt_ge. intros H. apply H2, Hgt, H. }
      rewrite E2. reflexivity.
Qed.

(** A rational standard error would print as the mean formatter prints
    it. *)
Lemma fixed3_Q2R (x : Q) : Table.fixed3 (Q2R x) = Fmt.fixed3 x.
Proof.
  unfold Table.fixed3, Fmt.fixed3.
  replace (Q2R x * 1000)%R with (Q2R (x * 1000))
    by (rewrite Q2R_mult; f_equal; unfold Q2R; simpl; Lra.lra).
  rewrite round_half_even_Q2R.
  destruct (Rlt_dec (Q2R x) 0) as [Hneg|Hpos].
  - rewrite <- RMicromega.Q2R_0 in Hneg. apply Rlt_Qlt in Hneg.
    apply Qlt_bool_iff in Hneg. rewrite Hneg. reflexivity.
  - destruct (Qlt_bool x 0) eqn:E; [|reflexivity].
    apply Qlt_bool_iff in E. apply Qlt_Rlt in E.
    rewrite RMicromega.Q2R_0 in E. contradiction.
Qed.

End Formats.

(** ** Replicates do not interfere *)

(** X13. The error an estimator stores for a replicate depends on the
    records of that replicate alone: on two tables that select the same
    training and the same test records for replicate i, completed runs
    store the same error for i, whatever the other replicates hold. *)
Theorem replicate_error_is_local (h : fit_fn) (ds ds' : Np.ndarray) (kw : kwargs)
  (i : nat) (svc_rates svc_rates' mars_rates mars_rates' : list Q) :
  (i < 50)%nat ->
  select ds i 0 = select ds' i 0 ->
  select ds i 1 = select ds' i 1 ->
  run h (svc_error_rates ds kw) = Some svc_rates ->
  run h (svc_error_rates ds' kw) = Some svc_rates' ->
  run h (mars_error_rates ds) = Some mars_rates ->
  run h (mars_error_rates ds') = Some mars_rates' ->
  nth i svc_rates 0 = nth i svc_rates' 0 /\
  nth i mars_rates 0 = nth i mars_rates' 0.
Proof.
  intros Hi Htrain Htest Hs Hs' Hm Hm'.
  apply svc_rates_inv in Hs as [_ Hs]. apply svc_rates_inv in Hs' as [_ Hs'].
  apply mars_rates_inv in Hm as [_ Hm]. apply mars_rates_inv in Hm' as [_ Hm'].
  specialize (Hs i Hi). specialize (Hs' i Hi).
  specialize (Hm i Hi). specialize (Hm' i Hi).
  unfold svc_replicate in Hs, Hs'. unfold mars_replicate in Hm, Hm'.
  rewrite Htrain, Htest in Hs, Hm.
  split; congruence.
Qed.

Lemma replicate_error_is_local_witness :
  nth 0 Toy.svc_rates 0 = nth 0 other_svc_rates 0 /\
  nth 0 Toy.mars_rates 0 = nth 0 other_mars_rates 0.
Proof.
  apply (replicate_error_is_local Toy.lib Toy.ds other_ds Kw.linear 0
           Toy.svc_rates other_svc_rates Toy.mars_rates other_mars_rates).
  - lia.
  - vm_compute. reflexivity.
  - vm_compute. reflexivity.
  - vm_compute. reflexivity.
  - vm_compute. reflexivity.
  - vm_compute. reflexivity.
  - vm_compute. reflexivity.
Defined.

(** ** The reported mean against a single cost *)

Lemma sum_le_pointwise (a b : list Q) :
  length a = length b ->
  (forall i, (i < length a)%nat -> nth i a 0 <= nth i b 0) ->
  Np.sum a <= Np.sum b.
Proof.
  revert b. induction a as [|x a IH]; intros [|y b] Hlen H; simpl in *;
    try discriminate.
  assert (Hxy : x <= y) by (apply (H 0%nat); lia).
  assert (Hab : Np.sum a <= Np.sum b).
  { apply IH; [lia|]. intros i Hi. apply (H (S i)). lia. }
  lra.
Qed.

Lemma nth_map_seq (f : nat -> Q) (n s i : nat) :
  (i < n)%nat -> nth i (map f (seq s n)) 0 = f (s + i)%nat.
Proof.
  revert s i. induction n as [|n IH]; intros s [|i] Hi; simpl; try lia.
  - rewrite Nat.add_0_r. reflexivity.
  - rewrite IH by lia. f_equal. lia.
Qed.

Lemma fixed_cost_errors_nth (h : fit_fn) (ds : Np.ndarray) (kw : kwargs)
  (C e : Q) (i : nat) :
  (i < 50)%nat ->
  svc_err h kw (select ds i 0) (select ds i 1) C = Some e ->
  nth i (fixed_cost_errors h ds kw C) 0 = e.
Proof.
  intros Hi He. unfold fixed_cost_errors.
  rewrite nth_map_seq by exact Hi. cbn [plus]. rewrite He. reflexivity.
Qed.

(** X14. The mean error the support-vector estimator reports is at most
    the mean, over the 50 replicates, of the test error of any single
    cost of the grid used throughout: choosing the cost per replicate on
    the test records can only lower the reported mean. *)
Theorem reported_mean_below_fixed_cost (h : fit_fn) (ds : Np.ndarray)
  (kw : kwargs) (C : Q) :
  has_test_records ds = true -> In C cost_grid ->
  exists m s,
    run h (estimate_svc_on_data ds kw) = Some (m, s) /\
    (forall i, (i < 50)%nat ->
               svc_err h kw (select ds i 0) (select ds i 1) C
               = Some (nth i (fixed_cost_errors h ds kw C) 0)) /\
    m <= Np.sum (fixed_cost_errors h ds kw C) / 50.
Proof.
  intros H HC. destruct (svc_rates_total h ds kw H) as [rates Hrun].
  destruct (svc_rates_inv h ds kw rates Hrun) as [Hlen Hall].
  exists (Np.mean rates), (Np.std rates / sqrt 50)%R.
  rewrite run_estimate_svc, Hrun. split; [reflexivity|].
  assert (Hfixed : forall i, (i < 50)%nat ->
             svc_err h kw (select ds i 0) (select ds i 1) C
             = Some (nth i (fixed_cost_errors h ds kw C) 0)
             /\ nth i rates 0 <= nth i (fixed_cost_errors h ds kw C) 0).
  { intros i Hi. specialize (Hall i Hi). rewrite run_svc_replicate in Hall.
    destruct (run h (for_each cost_grid _ _)) as [best|] eqn:Esweep;
      [|discriminate].
    injection Hall as Hbest.
    apply sweep_inv in Esweep as (_ & Hmin & _).
    destruct (Hmin C HC) as (e & He & Hle).
    rewrite (fixed_cost_errors_nth h ds kw C e i Hi He).
    split; [exact He|]. rewrite <- Hbest. exact Hle. }
  split; [intros i Hi; apply Hfixed, Hi|].
  rewrite (mean_50 rates Hlen).
  assert (Hsum : Np.sum rates <= Np.sum (fixed_cost_errors h ds kw C)).
  { apply sum_le_pointwise.
    - unfold fixed_cost_errors. rewrite length_map, length_seq. exact Hlen.
    - rewrite Hlen. intros i Hi. apply Hfixed, Hi. }
  apply Qmult_le_compat_r; [exact Hsum|]. discriminate.
Qed.

Lemma reported_mean_below_fixed_cost_witness :
  exists m s,
    run Toy.lib (estimate_svc_on_data Toy.ds Kw.linear) = Some (m, s) /\
    (forall i, (i < 50)%nat ->
               svc_err Toy.lib Kw.linear (select Toy.ds i 0) (select Toy.ds i 1)
                       (nth 0 cost_grid 0)
               = Some (nth i (fixed_cost_errors Toy.lib Toy.ds Kw.linear (nth 0 cost_grid 0))
                           0)) /\
    m <= Np.sum (fixed_cost_errors Toy.lib Toy.ds Kw.linear (nth 0 cost_grid 0)) / 50.
Proof.
  apply (reported_mean_below_fixed_cost Toy.lib Toy.ds Kw.linear (nth 0 cost_grid 0)).
  - vm_compute. reflexivity.
  - left. reflexivity.
Defined.

(** ** One Bayes rate under both columns *)

Module Columns.
Import String.
Local Open Scope string_scope.

(** Where the two fields of the last line are, for a text of 5 or of 3
    characters. *)
Lemma fields_of_line (t : string) :
  length t = 5%nat \/ length t = 3%nat ->
  let line := "Bayes " ++ (Fmt.spaces (23 - length t) ++ t)
                       ++ " " ++ (Fmt.spaces (19 - length t) ++ t) in
  substring 0 6 line = Read.bayes_word /\
  substring 6 (23 - length t) line = Fmt.spaces (23 - length t) /\
  substring (29 - length t) (length t) line = t /\
  substring 29 (20 - length t) line = Fmt.spaces (20 - length t) /\
  substring (49 - length t) (length t) line = t.
Proof.
  intros [H|H].
  - destruct t as [|c0 [|c1 [|c2 [|c3 [|c4 [|c5 t]]]]]]; try discriminate H.
    cbv. auto.
  - destruct t as [|c0 [|c1 [|c2 [|c3 t]]]]; try discriminate H.
    cbv. auto.
Qed.

Lemma titles_positions :
  let titles := nth 1 Table.header "" in
  index 0 Read.no_noise_title titles = Some 18%nat /\
  index 0 Read.six_noise_title titles = Some 38%nat /\
  length Read.no_noise_title = 17%nat /\
  length Read.six_noise_title = 18%nat.
Proof. vm_compute. auto. Qed.

Lemma table_ends_with_bayes_line (h : fit_fn)
  (no_noise_ds six_noise_ds : Np.ndarray) (lines : list string) :
  run h (cell13_output no_noise_ds six_noise_ds) = Some lines ->
  nth 1 lines "" = nth 1 Table.header "" /\
  last lines "" = table_last_line no_noise_ds six_noise_ds.
Proof.
  unfold cell13_output. rewrite run_bind.
  destruct (run h (notebook_results no_noise_ds six_noise_ds)) as [results|];
    [|discriminate].
  intros H. injection H as <-. unfold Table.print_table. split.
  - rewrite app_nth1 by (cbn; lia). reflexivity.
  - rewrite app_assoc. apply last_last.
Qed.

(** C5. The Bayes error rate is one value: the oracle's rule on the test
    records of the table that stacks the noise-free table on the first 7
    columns of the noisy one.  These are the test records of the two
    tables, and since the rule reads columns 3 to 6 only, the value is the
    one it gives on them with the noise columns left in.  The table prints
    this one value twice in its last line: after the word Bayes the line
    holds nothing but blanks and two copies of the text [t] that cell 5
    printed for the value (it reads back as the thousandths nearest to the
    value), the first ending in column 29 under the title of the
    no-noise column and the second ending in column 49 under the title of
    the six-noise column. *)
Theorem bayes_rate_single_pooled_value (no_noise_ds six_noise_ds : Np.ndarray) :
  let b := bayes_error_rate no_noise_ds six_noise_ds in
  let pooled := bayes_records (bayes_dataset no_noise_ds six_noise_ds) in
  let line := table_last_line no_noise_ds six_noise_ds in
  let t := cell5_output no_noise_ds six_noise_ds in
  let titles := nth 1 Table.header "" in
  (bayes_dataset no_noise_ds six_noise_ds
   = (no_noise_ds ++ map (firstn 7) six_noise_ds)%list /\
   pooled = (filter is_test no_noise_ds
               ++ map (firstn 7) (filter is_test six_noise_ds))%list /\
   b = oracle_error pooled /\
   b = oracle_error (filter is_test no_noise_ds
                       ++ filter is_test six_noise_ds)%list /\
   line = Fmt.bayes_fields (Fmt.float3 23 b) (Fmt.float3 19 b)) /\
  match b with
  | Some q =>
      exists k, Read.thousandths t = Some k /\
                (q * 1000 - inject_Z k <= 1 # 2 /\ inject_Z k - q * 1000 <= 1 # 2)%Q
  | None => t = Read.nan
  end /\
  (length line = 49%nat /\
   substring 0 6 line = Read.bayes_word /\
   substring 6 (23 - length t) line = Fmt.spaces (23 - length t) /\
   substring (29 - length t) (length t) line = t /\
   substring 29 (20 - length t) line = Fmt.spaces (20 - length t) /\
   substring (49 - length t) (length t) line = t) /\
  (exists c1 c2,
      index 0 Read.no_noise_title titles = Some c1 /\
      index 0 Read.six_noise_title titles = Some c2 /\
      (c1 <= 29 - length t)%nat /\ (29 <= c1 + length Read.no_noise_title)%nat /\
      (c2 <= 49 - length t)%nat /\ (49 <= c2 + length Read.six_noise_title)%nat) /\
  (forall (h : fit_fn) (lines : list string),
      run h (cell13_output no_noise_ds six_noise_ds) = Some lines ->
      nth 1 lines "" = titles /\ last lines "" = line).
Proof.
  intros b pooled line t titles.
  assert (Hpooled : pooled = (filter is_test no_noise_ds
                              ++ map (firstn 7) (filter is_test six_noise_ds))%list).
  { unfold pooled, bayes_dataset, Np.vstack, Np.columns_upto.
    rewrite bayes_records_filter, filter_app.
    rewrite (filter_map_commute is_test (firstn 7)) by apply is_test_upto7.
    reflexivity. }
  assert (Ht : match b with
               | Some q =>
                   exists k, Read.thousandths t = Some k /\
                             (0 <= k <= 1000)%Z /\
                             (q * 1000 - inject_Z k <= 1 # 2
                              /\ inject_Z k - q * 1000 <= 1 # 2)%Q /\
                             length t = 5%nat
               | None => t = Read.nan
               end) by apply Layout.rate_reads_back.
  assert (Hlen : length t = 5%nat \/ length t = 3%nat).
  { destruct b; [left; destruct Ht as (k & _ & _ & _ & H); exact H|].
    right. rewrite Ht. reflexivity. }
  split; [|split; [|split; [|split]]].
  - split; [reflexivity|]. split; [exact Hpooled|].
    split; [reflexivity|]. split; [|reflexivity].
    apply bayes_error_rate_pooled.
  - destruct b; [|exact Ht]. destruct Ht as (k & Hk & _ & Hnear & _).
    exists k. auto.
  - split; [apply Layout.last_line_width|].
    unfold line. rewrite Layout.last_line_text. fold t.
    apply (fields_of_line t Hlen).
  - destruct titles_positions as (H1 & H2 & L1 & L2). fold titles in H1, H2.
    exists 18%nat, 38%nat. rewrite L1, L2.
    split; [exact H1|]. split; [exact H2|].
    destruct Hlen as [-> | ->]; cbn; lia.
  - intros h lines Hrun. apply (table_ends_with_bayes_line h _ _ _ Hrun).
Qed.

End Columns.
